(** * Veterinary DICOM API: the archive series fetcher and its boundary layer

    A shallow embedding of
      - [src/utils/dicom.ts]            (the UID validator),
      - [src/services/orthancService.ts] (archive client, fallback, extraction),
      - [src/mock-db/cases.ts]          (the static record store),
      - [src/routes/caseBundle.ts], [src/routes/orthanc.ts] (the two handlers),
    followed by the properties the specification states about them.

    Conventions of the embedding.
      - A JavaScript string is a [string]; one [ascii] stands for one code
        unit.  The code only compares code units with the digits and the
        dot and takes lengths, so nothing depends on what a code unit above
        127 denotes.
      - A JavaScript number that the code merely carries around is kept as
        the text [String(n)] renders for it.
      - [await] is sequencing in a state-and-exception monad whose state
        is the record store together with the list of outbound requests
        made so far; requests are served one after the other.
      - Console output is not part of the model. *)

From Stdlib Require Import Ascii String.
From stdpp Require Import base option list strings gmap.

Local Open Scope string_scope.
Local Open Scope list_scope.

Set Warnings "-register-all".

(* ===================================================================== *)
(** * Part I: definitions                                                 *)
(* ===================================================================== *)

(** ** Regular expressions as [RegExp.prototype.test] decides them *)

(** The fragment of the pattern language that [dicom.ts] uses: classes,
    literal characters, concatenation and repetition, matched against the
    whole input (the pattern is anchored with [^] and [$] and carries no
    flag, so [$] is the end of the input and [test] keeps no state). *)
Inductive regex : Type :=
  | REmpty : regex
  | REps : regex
  | RChar (c : ascii) : regex
  | RRange (lo hi : ascii) : regex
  | RCat (r1 r2 : regex) : regex
  | RAlt (r1 r2 : regex) : regex
  | RStar (r : regex) : regex.

(** [r+] *)
Definition RPlus (r : regex) : regex := RCat r (RStar r).

Definition in_range (lo hi c : ascii) : bool :=
  (nat_of_ascii lo <=? nat_of_ascii c)%nat && (nat_of_ascii c <=? nat_of_ascii hi)%nat.

Fixpoint nullable (r : regex) : bool :=
  match r with
  | REmpty => false
  | REps => true
  | RChar _ => false
  | RRange _ _ => false
  | RCat r1 r2 => nullable r1 && nullable r2
  | RAlt r1 r2 => nullable r1 || nullable r2
  | RStar _ => true
  end.

Fixpoint deriv (c : ascii) (r : regex) : regex :=
  match r with
  | REmpty => REmpty
  | REps => REmpty
  | RChar d => if Ascii.eqb c d then REps else REmpty
  | RRange lo hi => if in_range lo hi c then REps else REmpty
  | RCat r1 r2 =>
      if nullable r1
      then RAlt (RCat (deriv c r1) r2) (deriv c r2)
      else RCat (deriv c r1) r2
  | RAlt r1 r2 => RAlt (deriv c r1) (deriv c r2)
  | RStar r1 => RCat (deriv c r1) (RStar r1)
  end.

Fixpoint regex_run (r : regex) (w : list ascii) : bool :=
  match w with
  | [] => nullable r
  | c :: w' => regex_run (deriv c r) w'
  end.

(** [/^r$/.test(s)] *)
Definition regex_test (r : regex) (s : string) : bool :=
  regex_run r (list_ascii_of_string s).

(** The words a pattern denotes; [regex_run] is checked against it below. *)
Inductive lang : regex → list ascii → Prop :=
  | lang_eps : lang REps []
  | lang_char c : lang (RChar c) [c]
  | lang_range lo hi c : in_range lo hi c = true → lang (RRange lo hi) [c]
  | lang_cat r1 r2 w1 w2 : lang r1 w1 → lang r2 w2 → lang (RCat r1 r2) (w1 ++ w2)
  | lang_alt_l r1 r2 w : lang r1 w → lang (RAlt r1 r2) w
  | lang_alt_r r1 r2 w : lang r2 w → lang (RAlt r1 r2) w
  | lang_star_nil r : lang (RStar r) []
  | lang_star_app r w1 w2 : lang r w1 → lang (RStar r) w2 → lang (RStar r) (w1 ++ w2).

(** ** [src/utils/dicom.ts] *)

(** [const dicomUidRegex = /^[0-9]+(\.[0-9]+)*$/] *)
Definition dicomUidRegex : regex :=
  RCat (RPlus (RRange "0" "9"))
       (RStar (RCat (RChar ".") (RPlus (RRange "0" "9")))).

(** [!uid] for a string: only the empty string is falsy. *)
Definition string_falsy (s : string) : bool :=
  match s with EmptyString => true | String _ _ => false end.

(** The parameter is typed [string]; the [typeof uid !== 'string'] disjunct
    is then false and only [!uid] decides the first test. *)
Definition isValidStudyInstanceUID (uid : string) : bool :=
  if string_falsy uid then false
  else if (String.length uid =? 0)%nat || (64 <? String.length uid)%nat then false
  else regex_test dicomUidRegex uid.

(** *** The grammar in the specification's words *)

Definition digit_chars : list ascii :=
  ["0"; "1"; "2"; "3"; "4"; "5"; "6"; "7"; "8"; "9"]%char.

Definition is_digit (c : ascii) : Prop := In c digit_chars.

(** one or more digits *)
Definition digits1 (w : list ascii) : Prop := w ≠ [] ∧ Forall is_digit w.

(** one or more digits, followed by zero or more groups of a single dot
    followed by one or more digits *)
Definition uid_grammar (w : list ascii) : Prop :=
  ∃ (d : list ascii) (groups : list (list ascii)),
    digits1 d ∧ Forall digits1 groups ∧
    w = d ++ concat (map (cons "."%char) groups).

Definition is_letter (c : ascii) : Prop :=
  in_range "a" "z" c = true ∨ in_range "A" "Z" c = true.

(** A two-state scanner for the same language, used to read off what the
    grammar excludes. [need] says a digit has to come next. *)
Fixpoint uid_scan (need : bool) (w : list ascii) : bool :=
  match w with
  | [] => negb need
  | c :: w' =>
      if in_range "0" "9" c then uid_scan false w'
      else if Ascii.eqb c "." then (if need then false else uid_scan true w')
      else false
  end.

(** ** JavaScript values, as [Response.json()] hands them to the service *)

(** A number is kept as the text [String(n)] renders; [0] and [-0] both
    render as ["0"], and no operation of the code tells them apart. *)
Definition JsNumber : Type := string.

Inductive JsValue : Type :=
  | JUndefined : JsValue
  | JNull : JsValue
  | JBool (b : bool) : JsValue
  | JNum (n : JsNumber) : JsValue
  | JStr (s : string) : JsValue
  | JArr (items : list JsValue) : JsValue
  | JObj (props : list (string * JsValue)) : JsValue.

Inductive JsError : Type :=
  | NetworkError   (* [fetch] rejected: connection refused, reset, DNS *)
  | TimeoutError   (* the [AbortSignal.timeout] of the call fired *)
  | SyntaxError    (* the body is not JSON *)
  | TypeError.     (* property read on null or undefined, call of a non-function *)

(** How an evaluation ends: with a value, or with a thrown error. *)
Inductive Completion (A : Type) : Type :=
  | Normal (a : A) : Completion A
  | Throw (e : JsError) : Completion A.
Arguments Normal {A} a.
Arguments Throw {A} e.

#[global] Instance Completion_ret : MRet Completion := λ A a, Normal a.
#[global] Instance Completion_bind : MBind Completion := λ A B f m,
  match m with
  | Normal a => f a
  | Throw e => Throw e
  end.

(** Own property [k] of an object built by [JSON.parse]. *)
Fixpoint own_property (k : string) (props : list (string * JsValue)) : option JsValue :=
  match props with
  | [] => None
  | (k', v) :: rest => if String.eqb k k' then Some v else own_property k rest
  end.

(** [!!v] *)
Definition js_truthy (v : JsValue) : bool :=
  match v with
  | JUndefined | JNull => false
  | JBool b => b
  | JNum n => negb (String.eqb n "0" || String.eqb n "NaN")
  | JStr s => negb (string_falsy s)
  | JArr _ | JObj _ => true
  end.

(** [v.k] for a property name [k] that no built-in prototype defines and
    that is no array index (here [MainDicomTags], [SeriesInstanceUID]). *)
Definition js_field (k : string) (v : JsValue) : Completion JsValue :=
  match v with
  | JUndefined | JNull => Throw TypeError
  | JObj props => Normal (default JUndefined (own_property k props))
  | JBool _ | JNum _ | JStr _ | JArr _ => Normal JUndefined
  end.

(** [v.length === 0] *)
Definition js_length_is_zero (v : JsValue) : Completion bool :=
  match v with
  | JUndefined | JNull => Throw TypeError
  | JArr items => Normal (length items =? 0)%nat
  | JStr s => Normal (String.length s =? 0)%nat
  | JObj props =>
      Normal (match own_property "length" props with
              | Some (JNum n) => String.eqb n "0"
              | _ => false
              end)
  | JBool _ | JNum _ => Normal false
  end.

(** [v[0]] *)
Definition js_index0 (v : JsValue) : Completion JsValue :=
  match v with
  | JUndefined | JNull => Throw TypeError
  | JArr items => Normal (match items with x :: _ => x | [] => JUndefined end)
  | JStr s => Normal (match s with String c _ => JStr (String c EmptyString) | EmptyString => JUndefined end)
  | JObj props => Normal (default JUndefined (own_property "0" props))
  | JBool _ | JNum _ => Normal JUndefined
  end.

(** The string a template literal puts in for [${v}].  An array is joined
    with commas, null and undefined elements giving the empty string; a
    plain object renders as [[object Object]] unless an own [toString]
    property (never callable after [JSON.parse]) hides the inherited one,
    in which case the conversion throws. *)
Fixpoint js_to_string (v : JsValue) : Completion string :=
  match v with
  | JUndefined => Normal "undefined"
  | JNull => Normal "null"
  | JBool true => Normal "true"
  | JBool false => Normal "false"
  | JNum n => Normal n
  | JStr s => Normal s
  | JArr items =>
      (fix join (l : list JsValue) : Completion string :=
         match l with
         | [] => Normal ""
         | x :: rest =>
             s ← (match x with
                  | JUndefined | JNull => Normal ""
                  | _ => js_to_string x
                  end);
             match rest with
             | [] => Normal s
             | _ :: _ => r ← join rest; Normal (s +:+ "," +:+ r)
             end
         end) items
  | JObj props =>
      match own_property "toString" props with
      | Some _ => Throw TypeError
      | None => Normal "[object Object]"
      end
  end.

(** [v.map(f)]: only an array has a callable [map]. *)
Definition js_array_map {A : Type} (f : JsValue → Completion A) (v : JsValue)
  : Completion (list A) :=
  match v with
  | JArr items => mapM f items
  | _ => Throw TypeError
  end.

(** ** [src/types/index.ts] *)

Record Patient : Type := {
  patient_id : string;
  name : string;
  species : string;
  breed : option string;
  ageYears : JsNumber;
  weightKg : option JsNumber;
  sex : string;
}.

Record Urinalysis : Type := { culture : string; result : string }.

Record LabResults : Type := { urinalysis : option Urinalysis }.

Record Imaging : Type := {
  imaging_studyInstanceUid : string;
  series : list string;
  sedationProtocol : option string;
}.

Record CaseBundle : Type := {
  studyInstanceUid : string;
  patient : Patient;
  history : string;
  labResults : LabResults;
  imaging : Imaging;
}.

(** One attribute of the DICOM JSON format: [{ Value?: unknown[]; vr?: string }]. *)
Record TagEntry : Type := {
  Value : option (list JsValue);
  vr : option string;
}.

(** [interface DicomWebSeries { [key: string]: ... }] *)
Abbreviation DicomWebSeries := (gmap string TagEntry).

(** ** [src/mock-db/cases.ts] *)

Definition case_luna : CaseBundle := {|
  studyInstanceUid := "1.3.6.1.4.1.14519.5.2.1.2193.7172.847236098565581057121195872945";
  patient := {| patient_id := "P004"; name := "Luna"; species := "Canine";
                breed := Some "Mixed Breed"; ageYears := "3"; weightKg := Some "18.7";
                sex := "FS" |};
  history := "Routine chest radiographs for pre-anesthetic screening. No clinical signs.";
  labResults := {| urinalysis := None |};
  imaging := {|
    imaging_studyInstanceUid := "1.3.6.1.4.1.14519.5.2.1.2193.7172.847236098565581057121195872945";
    series := [];
    sedationProtocol := Some "None required (conscious radiographs)" |} |}.

Definition case_fluffy : CaseBundle := {|
  studyInstanceUid := "1.2.826.0.1.3680043.8.1055.1.20111103111148288.98361414.79379639";
  patient := {| patient_id := "P001"; name := "Fluffy"; species := "Feline";
                breed := Some "Domestic Shorthair"; ageYears := "10"; weightKg := Some "4.2";
                sex := "FS" |};
  history := "Straining to urinate, suspected UTI. Owner reports vocalizing when using litter box.";
  labResults := {| urinalysis := Some {| culture := "E. coli"; result := "Positive" |} |};
  imaging := {|
    imaging_studyInstanceUid := "1.2.826.0.1.3680043.8.1055.1.20111103111148288.98361414.79379639";
    series := [];
    sedationProtocol := Some "Dexmedetomidine 5 mcg/kg IM" |} |}.

Definition case_max : CaseBundle := {|
  studyInstanceUid := "123";
  patient := {| patient_id := "P002"; name := "Max"; species := "Canine";
                breed := Some "Golden Retriever"; ageYears := "5"; weightKg := Some "32.5";
                sex := "M" |};
  history := "Limping on right hind leg for 3 days. No known trauma. Possible CCL tear (common in breed).";
  labResults := {| urinalysis := None |};
  imaging := {|
    imaging_studyInstanceUid := "123";
    series := ["SERIES_UID_1"; "SERIES_UID_2"];
    sedationProtocol := Some "Propofol 6 mg/kg IV for positioning" |} |}.

Definition case_buddy : CaseBundle := {|
  studyInstanceUid := "2.16.840.1.113669.632.20.1211.10000357775";
  patient := {| patient_id := "P003"; name := "Buddy"; species := "Canine";
                breed := Some "Labrador Retriever"; ageYears := "7"; weightKg := Some "28.3";
                sex := "M" |};
  history := "Persistent cough for 2 weeks, exercise intolerance. Rule out cardiac disease vs respiratory pathology.";
  labResults := {| urinalysis := None |};
  imaging := {|
    imaging_studyInstanceUid := "2.16.840.1.113669.632.20.1211.10000357775";
    series := ["1.3.46.670589.11.0.0.11.4.2.0.8743.5.5396.2006120114285654497";
               "1.3.46.670589.11.0.0.11.4.2.0.8743.5.5396.2006120114314125550";
               "1.3.46.670589.11.0.0.11.4.2.0.8743.5.5396.2006120114262848496"];
    sedationProtocol := Some "None (cooperative patient, conscious radiographs)" |} |}.

(** [export const caseBundles: Record<string, CaseBundle>], the object as
    the module creates it. *)
Definition caseBundles : gmap string CaseBundle :=
  <[studyInstanceUid case_luna := case_luna]>
    (<[studyInstanceUid case_fluffy := case_fluffy]>
      (<[studyInstanceUid case_max := case_max]>
        (<[studyInstanceUid case_buddy := case_buddy]> ∅))).

(** ** The network, as [fetch] sees it *)

Inductive Method : Type := GET | POST.

(** An outbound call: the arguments of one [fetch].  [body] is the value
    handed to [JSON.stringify]; [timeoutMs] the delay of the abort signal. *)
Record Request : Type := {
  url : string;
  method : Method;
  headers : list (string * string);
  body : option JsValue;
  timeoutMs : Z;
}.

(** A response: its status and what awaiting [json()] ends with. *)
Record Response : Type := {
  status : Z;
  json : Completion JsValue;
}.

(** [Response.ok]: a status in the range 200-299. *)
Definition ok (r : Response) : bool := (200 <=? status r)%Z && (status r <=? 299)%Z.

Inductive FetchOutcome : Type :=
  | Rejected (e : JsError) : FetchOutcome
  | Resolved (r : Response) : FetchOutcome.

(** The world outside: what a call ends with, given the calls made before
    it.  An archive whose answers do not change ignores the first argument. *)
Definition Network : Type := list Request → Request → FetchOutcome.

(** ** The monad of the request handlers *)

(** The record store shared by all requests, and the outbound calls made
    so far, oldest first. *)
Record AppState : Type := {
  store : gmap string CaseBundle;
  requests : list Request;
}.

Definition Js (A : Type) : Type := AppState → Completion A * AppState.

#[global] Instance Js_ret : MRet Js := λ A a σ, (Normal a, σ).
#[global] Instance Js_bind : MBind Js := λ A B f m σ,
  match m σ with
  | (Normal a, σ') => f a σ'
  | (Throw e, σ') => (Throw e, σ')
  end.

(** [try { m } catch (error) { h error }] *)
Definition try_catch {A : Type} (m : Js A) (h : JsError → Js A) : Js A := λ σ,
  match m σ with
  | (Normal a, σ') => (Normal a, σ')
  | (Throw e, σ') => h e σ'
  end.

(** An evaluation that touches neither the store nor the network. *)
Definition pure {A : Type} (c : Completion A) : Js A := λ σ, (c, σ).

Section Service.

Variable net : Network.

(** [await fetch(url, init)] *)
Definition fetch (rq : Request) : Js Response := λ σ,
  let σ' := {| store := store σ; requests := requests σ ++ [rq] |} in
  match net (requests σ) rq with
  | Rejected e => (Throw e, σ')
  | Resolved r => (Normal r, σ')
  end.

(** [await response.json()] *)
Definition response_json (r : Response) : Js JsValue := pure (json r).

(** *** [src/services/orthancService.ts] *)

(** The body of the find call: [{ Level: 'Study', Query: { StudyInstanceUID } }]. *)
Definition find_query (studyInstanceUid : string) : JsValue :=
  JObj [("Level", JStr "Study");
        ("Query", JObj [("StudyInstanceUID", JStr studyInstanceUid)])].

Definition find_request (baseUrl studyInstanceUid : string) : Request :=
  {| url := baseUrl +:+ "/tools/find";
     method := POST;
     headers := [("Content-Type", "application/json")];
     body := Some (find_query studyInstanceUid);
     timeoutMs := 5000 |}.

Definition series_request (baseUrl studyId : string) : Request :=
  {| url := baseUrl +:+ "/studies/" +:+ studyId +:+ "/series";
     method := GET;
     headers := [];
     body := None;
     timeoutMs := 5000 |}.

(** [series => ({ '0020000E': { vr: 'UI', Value: [series.MainDicomTags.SeriesInstanceUID] } })] *)
Definition toDicomWeb (series : JsValue) : Completion DicomWebSeries :=
  tags ← js_field "MainDicomTags" series;
  uid ← js_field "SeriesInstanceUID" tags;
  Normal {[ "0020000E" := {| Value := Some [uid]; vr := Some "UI" |} ]}.

(** [private async fetchFromServer(baseUrl, studyInstanceUid)]; the result
    [null] is [None].  Every step sits inside the [try], so the handler of
    the [catch] turns whatever is thrown into [null]. *)
Definition fetchFromServer (baseUrl studyInstanceUid : string)
  : Js (option (list DicomWebSeries)) :=
  try_catch
    (findResponse ← fetch (find_request baseUrl studyInstanceUid);
     if negb (ok findResponse) then mret None
     else
       studyIds ← response_json findResponse;
       none ← pure (if negb (js_truthy studyIds) then Normal true
                    else js_length_is_zero studyIds);
       if (none : bool) then mret (Some [])
       else
         studyId ← pure (first ← js_index0 studyIds; js_to_string first);
         seriesResponse ← fetch (series_request baseUrl studyId);
         if negb (ok seriesResponse) then mret None
         else
           seriesObjects ← response_json seriesResponse;
           seriesData ← pure (js_array_map toDicomWeb seriesObjects);
           mret (Some seriesData))
    (λ _, mret None).

Record OrthancService : Type := {
  primaryUrl : string;
  fallbackUrl : string;
}.

(** [async fetchStudySeries(studyInstanceUid)] *)
Definition fetchStudySeries (this : OrthancService) (studyInstanceUid : string)
  : Js (option (list DicomWebSeries)) :=
  primaryResult ← fetchFromServer (primaryUrl this) studyInstanceUid;
  match primaryResult with
  | Some found => mret (Some found)
  | None =>
      fallbackResult ← fetchFromServer (fallbackUrl this) studyInstanceUid;
      match fallbackResult with
      | Some found => mret (Some found)
      | None => mret None
      end
  end.

(** [s['0020000E']?.Value?.[0]], then [typeof seriesUid === 'string' ? seriesUid : null] *)
Definition seriesUidOrNull (s : DicomWebSeries) : option string :=
  let seriesUid :=
    match s !! "0020000E" with
    | None => JUndefined
    | Some entry =>
        match Value entry with
        | None => JUndefined
        | Some [] => JUndefined
        | Some (first :: _) => first
        end
    end in
  match seriesUid with
  | JStr uid => Some uid
  | _ => None
  end.

(** [series.map(...).filter((uid): uid is string => uid !== null)]; the
    last step only drops [| null] from the element type. *)
Definition extractSeriesUids (series : list DicomWebSeries) : list string :=
  omap id (filter (λ uid, uid ≠ None) (map seriesUidOrNull series)).

(** *** [src/mock-db/cases.ts], the lookup *)

(** [caseBundles[studyInstanceUid]]: the stored object itself, not a
    copy.  The handler calls it on validated identifiers only, and no
    property that [Object.prototype] contributes has such a name. *)
Definition findCaseByStudyUid (studyInstanceUid : string) : Js (option CaseBundle) :=
  λ σ, (Normal (store σ !! studyInstanceUid), σ).

(** *** The route handlers *)

Inductive JsonBody : Type :=
  | ErrorResponse (error : string) : JsonBody
  | CaseBundleBody (bundle : CaseBundle) : JsonBody
  | SeriesBody (found : list DicomWebSeries) : JsonBody.

(** What [res.status(code).json(body)] sends; [res.json] alone sends 200. *)
Record HttpResponse : Type := {
  statusCode : Z;
  payload : JsonBody;
}.

Definition with_series (seriesUids : list string) (bundle : CaseBundle) : CaseBundle :=
  {| studyInstanceUid := studyInstanceUid bundle;
     patient := patient bundle;
     history := history bundle;
     labResults := labResults bundle;
     imaging := {| imaging_studyInstanceUid := imaging_studyInstanceUid (imaging bundle);
                   series := seriesUids;
                   sedationProtocol := sedationProtocol (imaging bundle) |} |}.

(** [caseBundle.imaging.series = seriesUids], where [caseBundle] is the
    object the store holds under [key]: the assignment shows through the
    store as well as through the handler's variable. *)
Definition assign_series (key : string) (caseBundle : CaseBundle) (seriesUids : list string)
  : Js CaseBundle := λ σ,
  let updated := with_series seriesUids caseBundle in
  (Normal updated, {| store := <[key := updated]> (store σ); requests := requests σ |}).

(** [src/routes/caseBundle.ts]: [GET /api/case-bundle/:studyInstanceUid] *)
Definition caseBundleHandler (orthancService : OrthancService) (studyInstanceUid : string)
  : Js HttpResponse :=
  try_catch
    (if negb (isValidStudyInstanceUID studyInstanceUid)
     then mret {| statusCode := 400; payload := ErrorResponse "Invalid StudyInstanceUID format" |}
     else
       found ← findCaseByStudyUid studyInstanceUid;
       match found with
       | None => mret {| statusCode := 404; payload := ErrorResponse "Case not found for study UID" |}
       | Some caseBundle =>
           seriesData ← fetchStudySeries orthancService studyInstanceUid;
           sent ← match seriesData with
                  | Some ((_ :: _) as fetched) =>
                      assign_series studyInstanceUid caseBundle (extractSeriesUids fetched)
                  | Some [] | None => mret caseBundle
                  end;
           mret {| statusCode := 200; payload := CaseBundleBody sent |}
       end)
    (λ _, mret {| statusCode := 500; payload := ErrorResponse "Internal server error" |}).

(** [src/routes/orthanc.ts]: [GET /api/orthanc/series/:studyInstanceUid] *)
Definition orthancSeriesHandler (orthancService : OrthancService) (studyInstanceUid : string)
  : Js HttpResponse :=
  try_catch
    (if negb (isValidStudyInstanceUID studyInstanceUid)
     then mret {| statusCode := 400; payload := ErrorResponse "Invalid StudyInstanceUID format" |}
     else
       seriesData ← fetchStudySeries orthancService studyInstanceUid;
       match seriesData with
       | None => mret {| statusCode := 200; payload := ErrorResponse "Unable to fetch from Orthanc" |}
       | Some found => mret {| statusCode := 200; payload := SeriesBody found |}
       end)
    (λ _, mret {| statusCode := 200; payload := ErrorResponse "Unable to fetch from Orthanc" |}).

End Service.

(** [export const orthancService = new OrthancService()], for a given value
    of the environment variable [ORTHANC_URL] ([None] when it is unset):
    [process.env.ORTHANC_URL || 'http://localhost:8042']. *)
Definition orthancService (ORTHANC_URL : option string) : OrthancService :=
  {| primaryUrl := match ORTHANC_URL with
                   | Some configured =>
                       if string_falsy configured then "http://localhost:8042" else configured
                   | None => "http://localhost:8042"
                   end;
     fallbackUrl := "http://localhost:8042" |}.

(** ** Concrete networks and descriptors, for the examples below *)

(** No server answers. *)
Definition net_down : Network := λ _ _, Rejected NetworkError.

(** A series descriptor as Orthanc lists it, cut down to the fields read. *)
Definition series_descriptor (seriesInstanceUid : string) : JsValue :=
  JObj [("Type", JStr "Series");
        ("MainDicomTags", JObj [("SeriesInstanceUID", JStr seriesInstanceUid)])].

(** An archive reachable at [base] only, whose answers never change: the
    find call yields [ids], the series of record [studyId] are [listing]. *)
Definition archive (base : string) (ids : JsValue) (studyId : string) (listing : JsValue)
  : Network := λ _ rq,
  if String.eqb (url rq) (base +:+ "/tools/find")
  then Resolved {| status := 200; json := Normal ids |}
  else if String.eqb (url rq) (base +:+ "/studies/" +:+ studyId +:+ "/series")
  then Resolved {| status := 200; json := Normal listing |}
  else Rejected NetworkError.

(** The archive of the examples: one study, two series. *)
Definition demo_archive (base : string) : Network :=
  archive base (JArr [JStr "0a1b"; JStr "2c3d"]) "0a1b"
    (JArr [series_descriptor "1.2.3.1"; series_descriptor "1.2.3.2"]).

(** An archive that answers the find call with status 500. *)
Definition net_failing : Network := λ _ _, Resolved {| status := 500; json := Throw SyntaxError |}.

(** The element the client builds for a series identifier. *)
Definition tagged (seriesInstanceUid : string) : DicomWebSeries :=
  {[ "0020000E" := {| Value := Some [JStr seriesInstanceUid]; vr := Some "UI" |} ]}.

(** In the specification's words: the group carries the series identifier
    [uid], that is, the tag is present and its first value is the string
    [uid]. *)
Definition carries (group : DicomWebSeries) (uid : string) : Prop :=
  ∃ entry rest, group !! "0020000E" = Some entry ∧ Value entry = Some (JStr uid :: rest).

(** The answer of both handlers to an identifier that fails validation. *)
Definition invalid_format : HttpResponse :=
  {| statusCode := 400; payload := ErrorResponse "Invalid StudyInstanceUID format" |}.

(** An archive on which the find call succeeds and the list call is
    refused. *)
Definition net_list_refused (base : string) : Network :=
  archive base (JArr [JStr "0a1b"]) "elsewhere" JNull.

(** The address of the local Orthanc, default of both server fields. *)
Definition localhost : string := "http://localhost:8042".

(** The state of a freshly started process. *)
Definition initial_state : AppState := {| store := caseBundles; requests := [] |}.

(** ** [src/utils/dicom.ts], the log sanitizer *)

(** [s.split('.')]: the pieces between the dots, in order; a string without
    a dot, the empty one included, is its own single piece. *)
Fixpoint js_split_dot (s : string) : list string :=
  match s with
  | EmptyString => [EmptyString]
  | String c rest =>
      if Ascii.eqb c "." then EmptyString :: js_split_dot rest
      else match js_split_dot rest with
           | first :: others => String c first :: others
           | [] => [String c EmptyString]
           end
  end.

(** [parts.join('.')] for an array of strings. *)
Fixpoint js_join_dot (parts : list string) : string :=
  match parts with
  | [] => EmptyString
  | [only] => only
  | first :: others => first +:+ "." +:+ js_join_dot others
  end.

(** [parts[parts.length - 1]] inside a template literal: the last element,
    or the text of [undefined] for an empty array. *)
Definition js_last_text (parts : list string) : string :=
  match last parts with
  | Some text => text
  | None => "undefined"
  end.

Definition sanitizeUidForLogging (uid : string) : string :=
  if string_falsy uid || (String.length uid <? 20)%nat then "***"
  else
    let parts := js_split_dot uid in
    if (length parts <? 3)%nat then "***"
    else
      let prefix := js_join_dot (take 3 parts) in
      let suffix := js_last_text parts in
      prefix +:+ "..." +:+ suffix.

(** No dot occurs in the string. *)
Definition dot_free (s : string) : Prop := ¬ In "."%char (list_ascii_of_string s).

(** The number of dots of a string. *)
Fixpoint count_dots (s : string) : nat :=
  match s with
  | EmptyString => 0
  | String c rest => (if Ascii.eqb c "." then 1 else 0) + count_dots rest
  end.

(** ** [src/index.ts]: the two routers behind one process *)

(** An inbound request that Express has routed to one of the two handlers,
    with the value of its [:studyInstanceUid] parameter. *)
Inductive Inbound : Type :=
  | GetCaseBundle (studyInstanceUid : string) : Inbound
  | GetOrthancSeries (studyInstanceUid : string) : Inbound.

(** [app.use('/api/case-bundle', caseBundleRouter)] and
    [app.use('/api/orthanc', orthancRouter)]. *)
Definition handle (net : Network) (service : OrthancService) (inbound : Inbound)
  : Js HttpResponse :=
  match inbound with
  | GetCaseBundle uid => caseBundleHandler net service uid
  | GetOrthancSeries uid => orthancSeriesHandler net service uid
  end.

(** The process serving requests one after the other: each handler starts
    in the state the one before left. *)
Fixpoint serve (net : Network) (service : OrthancService) (inbound : list Inbound)
    (σ : AppState) : list (Completion HttpResponse) * AppState :=
  match inbound with
  | [] => ([], σ)
  | first :: others =>
      let (answer, σ1) := handle net service first σ in
      let (answers, σ2) := serve net service others σ1 in
      (answer :: answers, σ2)
  end.

(** ** Vocabulary of the further properties *)

(** A network whose answer to a call does not depend on the calls made
    before it. *)
Definition static_network (net : Network) : Prop :=
  ∀ (past past' : list Request) (rq : Request), net past rq = net past' rq.

(** The listing element [descriptor] is an object whose [MainDicomTags] is
    an object holding [value] under [SeriesInstanceUID] ([JUndefined] when
    it holds nothing there). *)
Definition describes (descriptor : JsValue) (value : JsValue) : Prop :=
  ∃ props tags,
    descriptor = JObj props ∧
    own_property "MainDicomTags" props = Some (JObj tags) ∧
    value = default JUndefined (own_property "SeriesInstanceUID" tags).

(** The group the client builds around a value. *)
Definition tagged_value (value : JsValue) : DicomWebSeries :=
  {[ "0020000E" := {| Value := Some [value]; vr := Some "UI" |} ]}.

(** The strings among a list of values, in order. *)
Definition strings_of (values : list JsValue) : list string :=
  omap (λ value, match value with JStr text => Some text | _ => None end) values.

(** The record is the one the module created under [key], up to its
    [imaging.series]. *)
Definition record_consistent (key : string) (bundle : CaseBundle) : Prop :=
  ∃ original, caseBundles !! key = Some original
              ∧ bundle = with_series (series (imaging bundle)) original.

Definition store_consistent (records : gmap string CaseBundle) : Prop :=
  dom records = dom caseBundles
  ∧ ∀ key bundle, records !! key = Some bundle → record_consistent key bundle.

(** The calls an evaluation added to the list of outbound calls. *)
Definition only_calls (base : string) (calls : list Request) : Prop :=
  Forall (λ rq, timeoutMs rq = 5000%Z ∧ ∃ path, url rq = base +:+ path) calls.

(** A descriptor whose tags hold no series identifier. *)
Definition bare_descriptor : JsValue :=
  JObj [("Type", JStr "Series"); ("MainDicomTags", JObj [("Modality", JStr "CR")])].

(** Reading [MainDicomTags] off the listing element throws, or gives null
    or undefined: the element has no tags to read a series identifier from. *)
Definition lacks_tags (descriptor : JsValue) : Prop :=
  ∀ tags, js_field "MainDicomTags" descriptor = Normal tags →
          tags = JUndefined ∨ tags = JNull.

(** The call is one of the service's: it carries the five second timeout
    and goes to one of the two configured addresses. *)
Definition service_call (this : OrthancService) (rq : Request) : Prop :=
  timeoutMs rq = 5000%Z
  ∧ ((∃ path, url rq = primaryUrl this +:+ path) ∨ (∃ path, url rq = fallbackUrl this +:+ path)).

(** An archive whose one series comes without a series identifier. *)
Definition bare_archive (base : string) : Network :=
  archive base (JArr [JStr "0a1b"]) "0a1b" (JArr [bare_descriptor]).

(** An archive whose listing has a null among its elements. *)
Definition holed_archive (base : string) : Network :=
  archive base (JArr [JStr "0a1b"]) "0a1b" (JArr [series_descriptor "1.2.3.1"; JNull]).

(* ===================================================================== *)
(** * Part II: properties                                                 *)
(* ===================================================================== *)

(** ** The matcher decides the language of the pattern *)

Lemma lang_cat_inv r1 r2 w :
  lang (RCat r1 r2) w → ∃ w1 w2, w = w1 ++ w2 ∧ lang r1 w1 ∧ lang r2 w2.
Proof. intros H. inversion H; subst. eauto. Qed.

Lemma lang_alt_inv r1 r2 w : lang (RAlt r1 r2) w → lang r1 w ∨ lang r2 w.
Proof. intros H. inversion H; subst; auto. Qed.

Lemma nullable_lang r : nullable r = true ↔ lang r [].
Proof.
  induction r as [| |d|lo hi|r1 IH1 r2 IH2|r1 IH1 r2 IH2|r1 IH1]; simpl; split; intros H;
    try discriminate; try (by constructor); try (by inversion H).
  - apply andb_true_iff in H as [H1 H2].
    change (@nil ascii) with (@nil ascii ++ []). constructor; tauto.
  - apply lang_cat_inv in H as (w1 & w2 & Heq & H1 & H2).
    symmetry in Heq. apply app_eq_nil in Heq as [-> ->]. apply andb_true_iff; tauto.
  - apply orb_true_iff in H as [H|H]; [apply lang_alt_l | apply lang_alt_r]; tauto.
  - apply orb_true_iff. apply lang_alt_inv in H. tauto.
Qed.

Lemma lang_star_cons r c w :
  lang (RStar r) (c :: w) →
  ∃ w1 w2, w = w1 ++ w2 ∧ lang r (c :: w1) ∧ lang (RStar r) w2.
Proof.
  intros H. remember (RStar r) as s eqn:Hs. remember (c :: w) as cw eqn:Hw.
  revert w Hs Hw.
  induction H as [| | | | | | |r' w1 w2 H1 _ H2 IH2]; intros v Hs Hv; try discriminate.
  injection Hs as ->. destruct w1 as [|a w1]; simpl in Hv.
  - by apply IH2.
  - injection Hv as -> <-. by exists w1, w2.
Qed.

Lemma deriv_lang c r w : lang (deriv c r) w ↔ lang r (c :: w).
Proof.
  revert w. induction r as [| |d|lo hi|r1 IH1 r2 IH2|r1 IH1 r2 IH2|r1 IH1]; intros w; simpl.
  - split; intros H; inversion H.
  - split; intros H; inversion H.
  - destruct (Ascii.eqb_spec c d) as [->|Hne]; split; intros H; inversion H; subst;
      try constructor; congruence.
  - destruct (in_range lo hi c) eqn:Hr; split; intros H; inversion H; subst;
      try (by constructor); congruence.
  - assert (Hcat : lang (RCat (deriv c r1) r2) w → lang (RCat r1 r2) (c :: w)).
    { intros H. apply lang_cat_inv in H as (w1 & w2 & -> & H1 & H2).
      apply IH1 in H1. change (c :: w1 ++ w2) with ((c :: w1) ++ w2). by constructor. }
    assert (Hsplit : lang (RCat r1 r2) (c :: w) →
              lang (RCat (deriv c r1) r2) w ∨ (lang r1 [] ∧ lang r2 (c :: w))).
    { intros H. apply lang_cat_inv in H as (w1 & w2 & Heq & H1 & H2).
      destruct w1 as [|a w1]; simpl in Heq.
      - right. by subst.
      - injection Heq as <- ->. left. constructor; [by apply IH1 | done]. }
    destruct (nullable r1) eqn:Hn; split; intros H.
    + apply lang_alt_inv in H as [H|H]; [by apply Hcat |].
      change (c :: w) with ([] ++ c :: w). constructor; [by apply nullable_lang | by apply IH2].
    + destruct (Hsplit H) as [H'|[_ H']]; [by apply lang_alt_l | apply lang_alt_r; by apply IH2].
    + by apply Hcat.
    + destruct (Hsplit H) as [H'|[H' _]]; [done |].
      apply nullable_lang in H'. congruence.
  - split; intros H; apply lang_alt_inv in H as [H|H];
      first [ apply lang_alt_l; by apply IH1 | apply lang_alt_r; by apply IH2 ].
  - split; intros H.
    + apply lang_cat_inv in H as (w1 & w2 & -> & H1 & H2).
      change (c :: w1 ++ w2) with ((c :: w1) ++ w2). constructor; [by apply IH1 | done].
    + apply lang_star_cons in H as (w1 & w2 & -> & H1 & H2).
      constructor; [by apply IH1 | done].
Qed.

Lemma regex_run_lang r w : regex_run r w = true ↔ lang r w.
Proof.
  revert r. induction w as [|c w IH]; intros r; simpl.
  - apply nullable_lang.
  - rewrite IH. apply deriv_lang.
Qed.

(** ** The pattern of [dicom.ts] denotes the grammar of the specification *)

Lemma in_range_digit c : in_range "0" "9" c = true ↔ is_digit c.
Proof.
  destruct c as [[] [] [] [] [] [] [] []]; vm_compute; split; intros H;
    try discriminate; try tauto; intuition congruence.
Qed.

Lemma lang_digit w : lang (RRange "0" "9") w ↔ ∃ c, w = [c] ∧ is_digit c.
Proof.
  split.
  - intros H. inversion H; subst. eexists; split; [done | by apply in_range_digit].
  - intros (c & -> & Hc). constructor. by apply in_range_digit.
Qed.

Lemma lang_digits_star w : lang (RStar (RRange "0" "9")) w ↔ Forall is_digit w.
Proof.
  split.
  - intros H. remember (RStar (RRange "0" "9")) as s eqn:Hs.
    induction H as [| | | | | | |r w1 w2 H1 _ H2 IH2]; try discriminate.
    + constructor.
    + injection Hs as ->. apply lang_digit in H1 as (c & -> & Hc).
      constructor; [done | by apply IH2].
  - induction 1 as [|c w Hc _ IH]; [constructor |].
    change (c :: w) with ([c] ++ w). constructor; [| done].
    apply lang_digit. eauto.
Qed.

Lemma lang_digits1 w : lang (RPlus (RRange "0" "9")) w ↔ digits1 w.
Proof.
  unfold RPlus, digits1. split.
  - intros H. apply lang_cat_inv in H as (w1 & w2 & -> & H1 & H2).
    apply lang_digit in H1 as (c & -> & Hc). apply lang_digits_star in H2.
    split; [done | by constructor].
  - intros [Hne Hall]. destruct w as [|c w]; [done |].
    apply Forall_cons in Hall as [Hc Hall].
    change (c :: w) with ([c] ++ w). constructor.
    + apply lang_digit. eauto.
    + by apply lang_digits_star.
Qed.

Lemma lang_groups w :
  lang (RStar (RCat (RChar ".") (RPlus (RRange "0" "9")))) w ↔
  ∃ groups, Forall digits1 groups ∧ w = concat (map (cons "."%char) groups).
Proof.
  split.
  - intros H. remember (RStar (RCat (RChar ".") (RPlus (RRange "0" "9")))) as s eqn:Hs.
    induction H as [| | | | | | |r w1 w2 H1 _ H2 IH2]; try discriminate.
    + by exists [].
    + injection Hs as ->. destruct (IH2 eq_refl) as (gs & Hgs & ->).
      apply lang_cat_inv in H1 as (d & g & -> & Hd & Hg).
      inversion Hd; subst. apply lang_digits1 in Hg.
      exists (g :: gs). split; [by constructor | done].
  - intros (gs & Hgs & ->). induction Hgs as [|g gs Hg _ IH]; simpl; [constructor |].
    change ("."%char :: g ++ concat (map (cons "."%char) gs))
      with (("."%char :: g) ++ concat (map (cons "."%char) gs)).
    constructor; [| done].
    change ("."%char :: g) with (["."%char] ++ g).
    constructor; [constructor | by apply lang_digits1].
Qed.

Lemma dicomUidRegex_grammar w : lang dicomUidRegex w ↔ uid_grammar w.
Proof.
  unfold dicomUidRegex, uid_grammar. split.
  - intros H. apply lang_cat_inv in H as (d & rest & -> & Hd & Hrest).
    apply lang_digits1 in Hd. apply lang_groups in Hrest as (gs & Hgs & ->).
    by exists d, gs.
  - intros (d & gs & Hd & Hgs & ->). constructor.
    + by apply lang_digits1.
    + apply lang_groups. eauto.
Qed.

(** ** What the grammar excludes, read off the scanner *)

Lemma uid_scan_digits need d rest :
  digits1 d → uid_scan need (d ++ rest) = uid_scan false rest.
Proof.
  intros [Hne Hall]. revert need Hne.
  induction Hall as [|c d Hc Hall IH]; intros need Hne; [done |].
  simpl. apply in_range_digit in Hc. rewrite Hc.
  destruct d as [|c' d]; [done |]. by apply IH.
Qed.

Lemma uid_scan_groups groups :
  Forall digits1 groups → uid_scan false (concat (map (cons "."%char) groups)) = true.
Proof.
  induction 1 as [|g gs Hg _ IH]; [done |].
  simpl. change (in_range "0" "9" ".") with false. simpl.
  by rewrite uid_scan_digits.
Qed.

Lemma uid_grammar_scan w : uid_grammar w → uid_scan true w = true.
Proof.
  intros (d & gs & Hd & Hgs & ->).
  rewrite uid_scan_digits by done. by apply uid_scan_groups.
Qed.

Lemma uid_scan_chars need w :
  uid_scan need w = true → Forall (λ c, is_digit c ∨ c = "."%char) w.
Proof.
  revert need. induction w as [|c w IH]; intros need H; [constructor |].
  simpl in H. destruct (in_range "0" "9" c) eqn:Hd.
  - constructor; [left; by apply in_range_digit | by eapply IH].
  - destruct (Ascii.eqb_spec c ".") as [->|Hne]; [| done].
    destruct need; [done |]. constructor; [by right | by eapply IH].
Qed.

Lemma uid_scan_trailing_dot need a : uid_scan need (a ++ ["."%char]) = false.
Proof.
  revert need. induction a as [|c a IH]; intros need; simpl.
  - change (in_range "0" "9" ".") with false. by destruct need.
  - destruct (in_range "0" "9" c); [done |].
    destruct (Ascii.eqb c "."); [| done]. destruct need; [done | apply IH].
Qed.

Lemma uid_scan_double_dot need a b :
  uid_scan need (a ++ "."%char :: "."%char :: b) = false.
Proof.
  revert need. induction a as [|c a IH]; intros need; simpl.
  - change (in_range "0" "9" ".") with false. by destruct need.
  - destruct (in_range "0" "9" c); [done |].
    destruct (Ascii.eqb c "."); [| done]. destruct need; [done | apply IH].
Qed.

Lemma letter_not_digit_or_dot c : is_letter c → ¬ (is_digit c ∨ c = "."%char).
Proof.
  intros Hl [Hd| ->].
  - apply in_range_digit in Hd. revert Hl Hd. unfold is_letter, in_range.
    rewrite !andb_true_iff, !Nat.leb_le. change (nat_of_ascii "a") with 97.
    change (nat_of_ascii "z") with 122. change (nat_of_ascii "A") with 65.
    change (nat_of_ascii "Z") with 90. change (nat_of_ascii "0") with 48.
    change (nat_of_ascii "9") with 57. lia.
  - destruct Hl as [H|H]; vm_compute in H; discriminate.
Qed.

Lemma list_ascii_of_string_app a b :
  list_ascii_of_string (a +:+ b) = list_ascii_of_string a ++ list_ascii_of_string b.
Proof. induction a as [|c a IH]; simpl; [done | by rewrite IH]. Qed.

Lemma list_ascii_of_string_length s : length (list_ascii_of_string s) = String.length s.
Proof. induction s as [|c s IH]; simpl; [done | by rewrite IH]. Qed.

Lemma isValidStudyInstanceUID_true uid :
  isValidStudyInstanceUID uid = true ↔
  uid ≠ "" ∧ (String.length uid ≤ 64)%nat ∧ uid_grammar (list_ascii_of_string uid).
Proof.
  unfold isValidStudyInstanceUID, regex_test. rewrite <- dicomUidRegex_grammar, <- regex_run_lang.
  destruct uid as [|c uid]; simpl string_falsy; cbv iota.
  - split; [done | by intros [? _]].
  - change (String.length (String c uid) =? 0)%nat with false. rewrite orb_false_l.
    destruct (Nat.ltb_spec 64 (String.length (String c uid))) as [Hlt|Hle].
    + split; [done | intros (_ & ? & _); lia].
    + split; [intros H; repeat split; [done | lia | done] | by intros (_ & _ & ?)].
Qed.

Lemma isValidStudyInstanceUID_scan uid :
  isValidStudyInstanceUID uid = true → uid_scan true (list_ascii_of_string uid) = true.
Proof.
  intros H. apply isValidStudyInstanceUID_true in H as (_ & _ & H).
  by apply uid_grammar_scan.
Qed.

(** C6. [isValidStudyInstanceUID] accepts exactly the non-empty strings of
    at most 64 characters that are one or more digits followed by zero or
    more groups of one dot and one or more digits.  In particular it
    rejects the empty string, every string longer than 64 characters,
    every string containing a letter, and every string with a leading, a
    trailing or two consecutive dots. *)
Theorem isValidStudyInstanceUID_spec :
  (∀ uid, isValidStudyInstanceUID uid = true ↔
          uid ≠ "" ∧ (String.length uid ≤ 64)%nat ∧ uid_grammar (list_ascii_of_string uid))
  ∧ isValidStudyInstanceUID "" = false
  ∧ (∀ uid, (64 < String.length uid)%nat → isValidStudyInstanceUID uid = false)
  ∧ (∀ uid c, In c (list_ascii_of_string uid) → is_letter c →
              isValidStudyInstanceUID uid = false)
  ∧ (∀ rest, isValidStudyInstanceUID ("." +:+ rest) = false)
  ∧ (∀ pre, isValidStudyInstanceUID (pre +:+ ".") = false)
  ∧ (∀ a b, isValidStudyInstanceUID (a +:+ ".." +:+ b) = false).
Proof.
  split; [exact isValidStudyInstanceUID_true |].
  split; [reflexivity |].
  split; [| split; [| split; [| split]]].
  - intros uid Hlen. apply not_true_is_false. intros H.
    apply isValidStudyInstanceUID_true in H as (_ & ? & _). lia.
  - intros uid c Hin Hl. apply not_true_is_false. intros H.
    apply isValidStudyInstanceUID_scan, uid_scan_chars in H.
    rewrite Forall_forall in H. eapply letter_not_digit_or_dot; [done |].
    apply H. by apply list_elem_of_In.
  - intros rest. apply not_true_is_false. intros H.
    apply isValidStudyInstanceUID_scan in H. simpl in H. discriminate.
  - intros pre. apply not_true_is_false. intros H.
    apply isValidStudyInstanceUID_scan in H.
    rewrite list_ascii_of_string_app in H. simpl in H.
    by rewrite uid_scan_trailing_dot in H.
  - intros a b. apply not_true_is_false. intros H.
    apply isValidStudyInstanceUID_scan in H.
    rewrite !list_ascii_of_string_app in H. simpl in H.
    by rewrite uid_scan_double_dot in H.
Qed.

(** ** The archive query client *)

Ltac run_js :=
  unfold mbind, mret, Js_bind, Js_ret, Completion_bind, Completion_ret,
    try_catch, pure, fetch, response_json in *; simpl in *.

(** Whatever the network does, the client ends normally, leaves the store
    alone and has made the find call, followed by at most one list call. *)
Lemma fetchFromServer_shape (net : Network) (baseUrl uid : string) (σ : AppState) :
  ∃ outcome later,
    fetchFromServer net baseUrl uid σ =
      (Normal outcome,
       {| store := store σ; requests := requests σ ++ find_request baseUrl uid :: later |})
    ∧ (later = [] ∨ ∃ studyId, later = [series_request baseUrl studyId]).
Proof.
  unfold fetchFromServer. run_js.
  destruct (net (requests σ) (find_request baseUrl uid)) as [e|r]; simpl;
    [by eauto 6 |].
  destruct (ok r); simpl; [| by eauto 6].
  destruct (json r) as [ids|e]; simpl; [| by eauto 6].
  destruct (if negb (js_truthy ids) then Normal true else js_length_is_zero ids)
    as [[]|e]; simpl; [by eauto 6 | | by eauto 6].
  destruct (js_index0 ids) as [first|e]; simpl; [| by eauto 6].
  destruct (js_to_string first) as [studyId|e]; simpl; [| by eauto 6].
  rewrite <- app_assoc. simpl.
  destruct (net _ (series_request baseUrl studyId)) as [e|r']; simpl; [by eauto 8 |].
  destruct (ok r'); simpl; [| by eauto 8].
  destruct (json r') as [objs|e]; simpl; [| by eauto 8].
  destruct (js_array_map toDicomWeb objs); simpl; by eauto 8.
Qed.

Lemma fetchFromServer_find_rejected net baseUrl uid σ e :
  net (requests σ) (find_request baseUrl uid) = Rejected e →
  fst (fetchFromServer net baseUrl uid σ) = Normal None.
Proof. intros H. unfold fetchFromServer. run_js. by rewrite H. Qed.

Lemma fetchFromServer_find_status net baseUrl uid σ r :
  net (requests σ) (find_request baseUrl uid) = Resolved r → ok r = false →
  fst (fetchFromServer net baseUrl uid σ) = Normal None.
Proof. intros H Hok. unfold fetchFromServer. run_js. by rewrite H, Hok. Qed.

Lemma fetchFromServer_find_body net baseUrl uid σ r e :
  net (requests σ) (find_request baseUrl uid) = Resolved r → ok r = true →
  json r = Throw e →
  fst (fetchFromServer net baseUrl uid σ) = Normal None.
Proof. intros H Hok Hjson. unfold fetchFromServer. run_js. by rewrite H, Hok, Hjson. Qed.

(** After a find call that yields a record ID first, the client is the
    list call for that record and what follows it. *)
Lemma fetchFromServer_found net baseUrl uid σ r studyId rest :
  net (requests σ) (find_request baseUrl uid) = Resolved r → ok r = true →
  json r = Normal (JArr (JStr studyId :: rest)) →
  fetchFromServer net baseUrl uid σ =
    let σ2 := {| store := store σ;
                 requests := requests σ ++ [find_request baseUrl uid;
                                            series_request baseUrl studyId] |} in
    match net (requests σ ++ [find_request baseUrl uid]) (series_request baseUrl studyId) with
    | Rejected _ => (Normal None, σ2)
    | Resolved r' =>
        if ok r' then
          match json r' with
          | Normal objs =>
              match js_array_map toDicomWeb objs with
              | Normal seriesData => (Normal (Some seriesData), σ2)
              | Throw _ => (Normal None, σ2)
              end
          | Throw _ => (Normal None, σ2)
          end
        else (Normal None, σ2)
    end.
Proof.
  intros H Hok Hjson. unfold fetchFromServer. run_js. rewrite H. simpl.
  rewrite Hok. simpl. rewrite Hjson. simpl. rewrite <- app_assoc. simpl.
  destruct (net _ (series_request baseUrl studyId)) as [e|r']; simpl; [done |].
  destruct (ok r'); simpl; [| done].
  destruct (json r') as [objs|e]; simpl; [| done].
  by destruct (js_array_map toDicomWeb objs).
Qed.

(** C3. If the find call or the list call fails (the call is rejected by a
    connection error or by its timeout, the status is not a success, or
    reading the body fails), [fetchFromServer] returns null; and on every
    network it ends normally, so no fault reaches [fetchStudySeries]. *)
Theorem fetchFromServer_unavailable (net : Network) (baseUrl uid : string) (σ : AppState) :
  (∃ outcome, fst (fetchFromServer net baseUrl uid σ) = Normal outcome)
  ∧ (∀ e, net (requests σ) (find_request baseUrl uid) = Rejected e →
          fst (fetchFromServer net baseUrl uid σ) = Normal None)
  ∧ (∀ r, net (requests σ) (find_request baseUrl uid) = Resolved r → ok r = false →
          fst (fetchFromServer net baseUrl uid σ) = Normal None)
  ∧ (∀ r e, net (requests σ) (find_request baseUrl uid) = Resolved r → ok r = true →
            json r = Throw e →
            fst (fetchFromServer net baseUrl uid σ) = Normal None)
  ∧ (∀ r studyId rest,
        net (requests σ) (find_request baseUrl uid) = Resolved r → ok r = true →
        json r = Normal (JArr (JStr studyId :: rest)) →
        (∀ e, net (requests σ ++ [find_request baseUrl uid]) (series_request baseUrl studyId)
                = Rejected e →
              fst (fetchFromServer net baseUrl uid σ) = Normal None)
        ∧ (∀ r', net (requests σ ++ [find_request baseUrl uid]) (series_request baseUrl studyId)
                   = Resolved r' →
                 ok r' = false →
                 fst (fetchFromServer net baseUrl uid σ) = Normal None)
        ∧ (∀ r' e, net (requests σ ++ [find_request baseUrl uid]) (series_request baseUrl studyId)
                     = Resolved r' →
                   ok r' = true → json r' = Throw e →
                   fst (fetchFromServer net baseUrl uid σ) = Normal None)).
Proof.
  split.
  { destruct (fetchFromServer_shape net baseUrl uid σ) as (out & later & -> & _). eauto. }
  split; [by eauto using fetchFromServer_find_rejected |].
  split; [by eauto using fetchFromServer_find_status |].
  split; [by eauto using fetchFromServer_find_body |].
  intros r studyId rest H Hok Hjson.
  rewrite (fetchFromServer_found _ _ _ _ _ _ _ H Hok Hjson). cbv zeta.
  split; [| split].
  - intros e ->. done.
  - intros r' -> ->. done.
  - intros r' e -> -> ->. done.
Qed.

(** C4. A find call that succeeds with no record ID makes the client
    return the empty sequence after that one call, and the empty sequence
    is not the null that any failed find call yields. *)
Theorem fetchFromServer_not_found (net : Network) (baseUrl uid : string) (σ : AppState)
    (r : Response) :
  net (requests σ) (find_request baseUrl uid) = Resolved r →
  ok r = true →
  json r = Normal (JArr []) →
  fetchFromServer net baseUrl uid σ =
    (Normal (Some []),
     {| store := store σ; requests := requests σ ++ [find_request baseUrl uid] |})
  ∧ (∀ net' baseUrl' uid' σ',
       (∃ e, net' (requests σ') (find_request baseUrl' uid') = Rejected e) ∨
       (∃ r', net' (requests σ') (find_request baseUrl' uid') = Resolved r' ∧ ok r' = false) →
       fst (fetchFromServer net' baseUrl' uid' σ') = Normal None
       ∧ fst (fetchFromServer net' baseUrl' uid' σ') ≠ fst (fetchFromServer net baseUrl uid σ)).
Proof.
  intros H Hok Hjson.
  assert (Hrun : fetchFromServer net baseUrl uid σ =
    (Normal (Some []),
     {| store := store σ; requests := requests σ ++ [find_request baseUrl uid] |})).
  { unfold fetchFromServer. run_js. by rewrite H, Hok, Hjson. }
  split; [done |].
  intros net' baseUrl' uid' σ' Hfail.
  assert (Hnone : fst (fetchFromServer net' baseUrl' uid' σ') = Normal None).
  { destruct Hfail as [[e He]|(r' & Hr' & Hok')];
      eauto using fetchFromServer_find_rejected, fetchFromServer_find_status. }
  split; [done |]. rewrite Hnone, Hrun. simpl. congruence.
Qed.

(** C8. When the find call succeeds with one or more record IDs, the
    client's second call is the series listing of the first of them, in
    the order the server gave. *)
Theorem fetchFromServer_first_record (net : Network) (baseUrl uid : string) (σ : AppState)
    (r : Response) (studyId : string) (rest : list JsValue) :
  net (requests σ) (find_request baseUrl uid) = Resolved r →
  ok r = true →
  json r = Normal (JArr (JStr studyId :: rest)) →
  requests (snd (fetchFromServer net baseUrl uid σ)) =
    requests σ ++ [find_request baseUrl uid; series_request baseUrl studyId]
  ∧ url (series_request baseUrl studyId) = baseUrl +:+ "/studies/" +:+ studyId +:+ "/series"
  ∧ method (series_request baseUrl studyId) = GET.
Proof.
  intros H Hok Hjson. split; [| done].
  rewrite (fetchFromServer_found _ _ _ _ _ _ _ H Hok Hjson). cbv zeta.
  repeat case_match; done.
Qed.

(** ** The fallback orchestrator *)

Lemma fetchStudySeries_store (net : Network) (this : OrthancService) (uid : string)
    (σ : AppState) :
  store (snd (fetchStudySeries net this uid σ)) = store σ.
Proof.
  unfold fetchStudySeries.
  destruct (fetchFromServer_shape net (primaryUrl this) uid σ) as (o1 & l1 & H1 & _).
  unfold mbind, Js_bind. rewrite H1. destruct o1 as [found|]; [done |].
  match goal with |- context [fetchFromServer net (fallbackUrl this) uid ?s] =>
    destruct (fetchFromServer_shape net (fallbackUrl this) uid s) as (o2 & l2 & H2 & _)
  end.
  rewrite H2. by destruct o2.
Qed.

(** C1. [fetchStudySeries] asks the primary server first.  A non-null
    answer, empty or not, is returned as it is, and the state is the one
    the primary query left: no further call is made.  On null from the
    primary the secondary is asked and its non-null answer returned; when
    both answer null the result is null, which is not the empty sequence. *)
Theorem fetchStudySeries_fallback (net : Network) (this : OrthancService) (uid : string)
    (σ : AppState) :
  let primary := fetchFromServer net (primaryUrl this) uid σ in
  let fallback := fetchFromServer net (fallbackUrl this) uid (snd primary) in
  (∃ later, requests (snd (fetchStudySeries net this uid σ)) =
              requests σ ++ find_request (primaryUrl this) uid :: later)
  ∧ (∀ found, fst primary = Normal (Some found) →
       fetchStudySeries net this uid σ = (Normal (Some found), snd primary))
  ∧ (fst primary = Normal None →
       ∀ found, fst fallback = Normal (Some found) →
         fetchStudySeries net this uid σ = (Normal (Some found), snd fallback))
  ∧ (fst primary = Normal None → fst fallback = Normal None →
       fetchStudySeries net this uid σ = (Normal None, snd fallback))
  ∧ (None : option (list DicomWebSeries)) ≠ Some [].
Proof.
  cbv zeta. unfold fetchStudySeries, mbind, Js_bind.
  destruct (fetchFromServer_shape net (primaryUrl this) uid σ) as (o1 & l1 & H1 & _).
  rewrite H1. simpl.
  match goal with |- context [fetchFromServer net (fallbackUrl this) uid ?s] =>
    destruct (fetchFromServer_shape net (fallbackUrl this) uid s) as (o2 & l2 & H2 & _)
  end.
  split; [| split; [| split; [| split]]].
  - destruct o1 as [found|]; simpl; [by eauto |].
    rewrite H2. simpl. rewrite <- app_assoc. simpl. destruct o2; simpl; by eauto.
  - intros found [= ->]. done.
  - intros [= ->] found. rewrite H2. simpl. by intros [= ->].
  - intros [= ->]. rewrite H2. simpl. by intros [= ->].
  - done.
Qed.

(** ** The response normalizer *)

Lemma extractSeriesUids_omap (groups : list DicomWebSeries) :
  extractSeriesUids groups = omap seriesUidOrNull groups.
Proof.
  induction groups as [|g groups IH]; [done |].
  unfold extractSeriesUids in *. rewrite map_cons. cbn [omap list_omap].
  destruct (seriesUidOrNull g) as [uid|] eqn:Hg.
  - rewrite filter_cons_True by done. cbn [omap list_omap id]. by rewrite IH.
  - rewrite filter_cons_False by (by intros ?). done.
Qed.

Lemma seriesUidOrNull_carries (group : DicomWebSeries) (uid : string) :
  seriesUidOrNull group = Some uid ↔ carries group uid.
Proof.
  unfold seriesUidOrNull, carries. split.
  - intros H. destruct (group !! "0020000E") as [entry|]; [| done].
    destruct (Value entry) as [[|first rest]|] eqn:Hv; try done.
    destruct first; try done. injection H as ->. eauto.
  - intros (entry & rest & -> & ->). done.
Qed.

Lemma extractSeriesUids_app (before after : list DicomWebSeries) :
  extractSeriesUids (before ++ after) = extractSeriesUids before ++ extractSeriesUids after.
Proof. rewrite !extractSeriesUids_omap. apply omap_app. Qed.

Lemma extractSeriesUids_carried (groups : list DicomWebSeries) (uids : list string) :
  Forall2 carries groups uids → extractSeriesUids groups = uids.
Proof.
  intros H. rewrite extractSeriesUids_omap.
  induction H as [|g uid groups uids Hc _ IH]; [done |].
  apply seriesUidOrNull_carries in Hc. simpl. rewrite Hc. f_equal. exact IH.
Qed.

(** C5. [extractSeriesUids] is a total function that keeps, in input
    order, the first value of tag 0020000E of every group where the tag is
    present with a string as first value, and drops every other group
    without disturbing the entries around it. *)
Theorem extractSeriesUids_spec :
  extractSeriesUids [] = []
  ∧ (∀ group uid before after, carries group uid →
       extractSeriesUids (before ++ group :: after) =
         extractSeriesUids before ++ uid :: extractSeriesUids after)
  ∧ (∀ group before after, (¬ ∃ uid, carries group uid) →
       extractSeriesUids (before ++ group :: after) =
         extractSeriesUids before ++ extractSeriesUids after)
  ∧ (∀ groups uids, Forall2 carries groups uids → extractSeriesUids groups = uids).
Proof.
  split; [done |]. split; [| split].
  - intros group uid before after Hc. apply seriesUidOrNull_carries in Hc.
    rewrite extractSeriesUids_app. f_equal.
    rewrite !extractSeriesUids_omap. simpl. by rewrite Hc.
  - intros group before after Hn.
    rewrite extractSeriesUids_app. f_equal.
    rewrite !extractSeriesUids_omap. simpl.
    destruct (seriesUidOrNull group) as [uid|] eqn:Hg; [| done].
    exfalso. apply Hn. exists uid. by apply seriesUidOrNull_carries.
  - exact extractSeriesUids_carried.
Qed.

(** ** The route handlers *)

Lemma caseBundles_keys_valid (uid : string) :
  is_Some (caseBundles !! uid) → isValidStudyInstanceUID uid = true.
Proof.
  unfold caseBundles. intros [bundle H].
  repeat (apply lookup_insert_Some in H as [[<- _]|[_ H]]; [by vm_compute |]).
  by rewrite lookup_empty in H.
Qed.

(** C7. A study identifier that fails the UID grammar makes both handlers
    answer 400 with the validation error and leaves the state as it was:
    the list of outbound calls has not grown, so the archive client was
    not invoked. *)
Theorem invalid_uid_no_network (net : Network) (service : OrthancService) (uid : string)
    (σ : AppState) :
  isValidStudyInstanceUID uid = false →
  caseBundleHandler net service uid σ = (Normal invalid_format, σ)
  ∧ orthancSeriesHandler net service uid σ = (Normal invalid_format, σ)
  ∧ requests (snd (caseBundleHandler net service uid σ)) = requests σ
  ∧ requests (snd (orthancSeriesHandler net service uid σ)) = requests σ.
Proof.
  intros H. unfold caseBundleHandler, orthancSeriesHandler, try_catch. rewrite H. done.
Qed.

(** The handler on a stored, valid identifier, in terms of what the fetch
    gave. *)
Lemma caseBundleHandler_found (net : Network) (service : OrthancService) (uid : string)
    (σ σ' : AppState) (bundle : CaseBundle) (fetched : option (list DicomWebSeries)) :
  isValidStudyInstanceUID uid = true →
  store σ !! uid = Some bundle →
  fetchStudySeries net service uid σ = (Normal fetched, σ') →
  caseBundleHandler net service uid σ =
    match fetched with
    | Some ((_ :: _) as groups) =>
        (Normal {| statusCode := 200;
                   payload := CaseBundleBody (with_series (extractSeriesUids groups) bundle) |},
         {| store := <[uid := with_series (extractSeriesUids groups) bundle]> (store σ');
            requests := requests σ' |})
    | Some [] | None =>
        (Normal {| statusCode := 200; payload := CaseBundleBody bundle |}, σ')
    end.
Proof.
  intros Hvalid Hlookup Hfetch.
  unfold caseBundleHandler, try_catch, findCaseByStudyUid, mbind, Js_bind.
  rewrite Hvalid. simpl. rewrite Hlookup, Hfetch.
  destruct fetched as [[|g gs]|]; done.
Qed.

(** C9. For a study identifier of the static record store, when the fetch
    yields two groups carrying the series identifiers [s1] and [s2], the
    handler answers 200 with the stored record whose [imaging.series] is
    exactly [[s1; s2]], whatever list the record held. *)
Theorem caseBundle_series_overwritten (net : Network) (service : OrthancService)
    (uid : string) (σ σ' : AppState) (bundle : CaseBundle)
    (g1 g2 : DicomWebSeries) (s1 s2 : string) :
  is_Some (caseBundles !! uid) →
  store σ !! uid = Some bundle →
  fetchStudySeries net service uid σ = (Normal (Some [g1; g2]), σ') →
  carries g1 s1 →
  carries g2 s2 →
  ∃ sent σ'',
    caseBundleHandler net service uid σ =
      (Normal {| statusCode := 200; payload := CaseBundleBody sent |}, σ'')
    ∧ series (imaging sent) = [s1; s2]
    ∧ sent = with_series [s1; s2] bundle.
Proof.
  intros Hkey Hlookup Hfetch H1 H2.
  rewrite (caseBundleHandler_found _ _ _ _ _ _ _ (caseBundles_keys_valid _ Hkey) Hlookup Hfetch).
  rewrite (extractSeriesUids_carried [g1; g2] [s1; s2]) by (repeat constructor; done).
  eauto.
Qed.

(** C10. For a study identifier of the static record store, when the
    fetch yields null or the empty sequence, the handler answers 200 with
    the stored record as it is and the store is unchanged; the record's
    [imaging.series] is assigned exactly when the fetched sequence is
    non-empty. *)
Theorem caseBundle_series_kept (net : Network) (service : OrthancService)
    (uid : string) (σ σ' : AppState) (bundle : CaseBundle)
    (fetched : option (list DicomWebSeries)) :
  is_Some (caseBundles !! uid) →
  store σ !! uid = Some bundle →
  fetchStudySeries net service uid σ = (Normal fetched, σ') →
  (fetched = None ∨ fetched = Some [] →
     caseBundleHandler net service uid σ =
       (Normal {| statusCode := 200; payload := CaseBundleBody bundle |}, σ')
     ∧ store σ' = store σ)
  ∧ (∀ g gs, fetched = Some (g :: gs) →
       caseBundleHandler net service uid σ =
         (Normal {| statusCode := 200;
                    payload := CaseBundleBody (with_series (extractSeriesUids (g :: gs)) bundle) |},
          {| store := <[uid := with_series (extractSeriesUids (g :: gs)) bundle]> (store σ');
             requests := requests σ' |})).
Proof.
  intros Hkey Hlookup Hfetch.
  rewrite (caseBundleHandler_found _ _ _ _ _ _ _ (caseBundles_keys_valid _ Hkey) Hlookup Hfetch).
  split.
  - intros Hempty. split.
    + by destruct Hempty as [-> | ->].
    + pose proof (fetchStudySeries_store net service uid σ) as Hs.
      by rewrite Hfetch in Hs.
  - by intros g gs ->.
Qed.

(** The handler of the series route never writes to the store. *)
Lemma orthancSeriesHandler_store (net : Network) (service : OrthancService) (uid : string)
    (σ : AppState) :
  store (snd (orthancSeriesHandler net service uid σ)) = store σ.
Proof.
  unfold orthancSeriesHandler, try_catch, mbind, Js_bind.
  destruct (isValidStudyInstanceUID uid); simpl; [| done].
  pose proof (fetchStudySeries_store net service uid σ) as Hs.
  destruct (fetchStudySeries net service uid σ) as [[[found|]|e] σ']; done.
Qed.

(** X12. What the case-bundle handler leaves alone: every record but the one
    requested. *)
Lemma caseBundleHandler_other_records (net : Network) (service : OrthancService)
    (uid key : string) (σ : AppState) :
  key ≠ uid →
  store (snd (caseBundleHandler net service uid σ)) !! key = store σ !! key.
Proof.
  intros Hne. unfold caseBundleHandler, try_catch, findCaseByStudyUid, mbind, Js_bind.
  destruct (isValidStudyInstanceUID uid); simpl; [| done].
  destruct (store σ !! uid) as [bundle|]; simpl; [| done].
  pose proof (fetchStudySeries_store net service uid σ) as Hs.
  destruct (fetchStudySeries net service uid σ) as [[[[|g gs]|]|e] σ']; simpl in *;
    rewrite ?lookup_insert_ne by done; by rewrite Hs.
Qed.

(** C2. The record store does not survive a request unchanged.  A process
    started on [caseBundles] serves [GET /api/case-bundle/123] while the
    archive lists two series: afterwards the store itself holds the fetched
    list under ["123"] in place of the two placeholders.  The same request
    served next with no archive reachable answers with the fetched list,
    where the freshly started process answers with the placeholders. *)
Theorem caseBundleHandler_mutates_store :
  let service := orthancService None in
  let σ1 := snd (caseBundleHandler (demo_archive "http://localhost:8042") service "123"
                   initial_state) in
  store initial_state !! "123" = Some case_max
  ∧ series (imaging case_max) = ["SERIES_UID_1"; "SERIES_UID_2"]
  ∧ store σ1 !! "123" = Some (with_series ["1.2.3.1"; "1.2.3.2"] case_max)
  ∧ store σ1 ≠ store initial_state
  ∧ fst (caseBundleHandler net_down service "123" σ1) =
      Normal {| statusCode := 200;
                payload := CaseBundleBody (with_series ["1.2.3.1"; "1.2.3.2"] case_max) |}
  ∧ fst (caseBundleHandler net_down service "123" initial_state) =
      Normal {| statusCode := 200; payload := CaseBundleBody case_max |}.
Proof.
  cbv zeta.
  assert (H1 : store (snd (caseBundleHandler (demo_archive "http://localhost:8042")
                             (orthancService None) "123" initial_state)) !! "123"
               = Some (with_series ["1.2.3.1"; "1.2.3.2"] case_max)) by (vm_compute; reflexivity).
  split; [by vm_compute |]. split; [done |]. split; [exact H1 |].
  split; [| split; vm_compute; reflexivity].
  intros Heq. rewrite Heq in H1. vm_compute in H1. discriminate.
Qed.

(** ** The theorems at concrete inputs *)

Lemma isValidStudyInstanceUID_spec_witness :
  isValidStudyInstanceUID "1.2.840" = true
  ∧ isValidStudyInstanceUID "invalid-uid" = false
  ∧ isValidStudyInstanceUID
      "1.2.826.0.1.3680043.8.1055.1.20111103111148288.98361414.793796390" = false.
Proof.
  destruct isValidStudyInstanceUID_spec as (Hiff & _ & Hlong & Hletter & _).
  split; [| split].
  - apply Hiff. split; [done |]. split; [simpl; lia |].
    exists ["1"%char], [["2"%char]; ["8"; "4"; "0"]%char].
    split; [| split; [| reflexivity]].
    + split; [done |]. repeat constructor; simpl; tauto.
    + repeat constructor; try done; simpl; tauto.
  - apply (Hletter "invalid-uid" "i"%char); [simpl; tauto | left; reflexivity].
  - apply Hlong. simpl. lia.
Defined.

Lemma fetchFromServer_unavailable_witness :
  fst (fetchFromServer net_down localhost "123" initial_state) = Normal None
  ∧ fst (fetchFromServer net_failing localhost "123" initial_state) = Normal None
  ∧ fst (fetchFromServer (net_list_refused localhost) localhost "123" initial_state) = Normal None.
Proof.
  split; [| split].
  - apply (proj1 (proj2 (fetchFromServer_unavailable net_down localhost "123" initial_state))
             NetworkError).
    reflexivity.
  - apply (proj1 (proj2 (proj2
             (fetchFromServer_unavailable net_failing localhost "123" initial_state)))
             {| status := 500; json := Throw SyntaxError |}); reflexivity.
  - apply (proj1 ((proj2 (proj2 (proj2 (proj2
             (fetchFromServer_unavailable (net_list_refused localhost) localhost "123"
                initial_state)))))
             {| status := 200; json := Normal (JArr [JStr "0a1b"]) |} "0a1b" []
             eq_refl eq_refl eq_refl) NetworkError).
    reflexivity.
Defined.

Lemma fetchFromServer_not_found_witness :
  fetchFromServer (archive localhost (JArr []) "0a1b" JNull) localhost "1.2.3" initial_state =
    (Normal (Some []),
     {| store := caseBundles; requests := [find_request localhost "1.2.3"] |})
  ∧ fst (fetchFromServer net_down localhost "1.2.3" initial_state)
    ≠ fst (fetchFromServer (archive localhost (JArr []) "0a1b" JNull) localhost "1.2.3"
             initial_state).
Proof.
  destruct (fetchFromServer_not_found (archive localhost (JArr []) "0a1b" JNull)
              localhost "1.2.3" initial_state {| status := 200; json := Normal (JArr []) |})
    as [Hrun Hdiff]; [reflexivity | reflexivity | reflexivity |].
  split; [exact Hrun |].
  apply (Hdiff net_down localhost "1.2.3" initial_state).
  left. exists NetworkError. reflexivity.
Defined.

Lemma fetchFromServer_first_record_witness :
  requests (snd (fetchFromServer (demo_archive localhost) localhost "123" initial_state)) =
    [find_request localhost "123"; series_request localhost "0a1b"]
  ∧ url (series_request localhost "0a1b") = "http://localhost:8042/studies/0a1b/series".
Proof.
  destruct (fetchFromServer_first_record (demo_archive localhost) localhost "123" initial_state
              {| status := 200; json := Normal (JArr [JStr "0a1b"; JStr "2c3d"]) |}
              "0a1b" [JStr "2c3d"])
    as (Hreq & Hurl & _); [reflexivity | reflexivity | reflexivity |].
  split; [exact Hreq | exact Hurl].
Defined.

Lemma fetchStudySeries_fallback_witness :
  fst (fetchStudySeries (demo_archive localhost) (orthancService None) "123" initial_state) =
    Normal (Some [tagged "1.2.3.1"; tagged "1.2.3.2"])
  ∧ fst (fetchStudySeries (demo_archive localhost)
           (orthancService (Some "http://pacs.example:8042")) "123" initial_state) =
      Normal (Some [tagged "1.2.3.1"; tagged "1.2.3.2"])
  ∧ fst (fetchStudySeries net_down (orthancService None) "123" initial_state) = Normal None.
Proof.
  split; [| split].
  - rewrite (proj1 (proj2 (fetchStudySeries_fallback (demo_archive localhost)
               (orthancService None) "123" initial_state))
               [tagged "1.2.3.1"; tagged "1.2.3.2"]); [reflexivity |].
    vm_compute. reflexivity.
  - rewrite (proj1 (proj2 (proj2 (fetchStudySeries_fallback (demo_archive localhost)
               (orthancService (Some "http://pacs.example:8042")) "123" initial_state)))
               ltac:(vm_compute; reflexivity)
               [tagged "1.2.3.1"; tagged "1.2.3.2"]); [reflexivity |].
    vm_compute. reflexivity.
  - rewrite (proj1 (proj2 (proj2 (proj2 (fetchStudySeries_fallback net_down
               (orthancService None) "123" initial_state))))); reflexivity.
Defined.

Lemma tagged_carries (uid : string) : carries (tagged uid) uid.
Proof.
  exists {| Value := Some [JStr uid]; vr := Some "UI" |}, [].
  split; [apply lookup_singleton_eq | reflexivity].
Defined.

Lemma extractSeriesUids_spec_witness :
  extractSeriesUids [tagged "1.2.3.1"; ∅; tagged "1.2.3.2"; tagged "1.2.3.3"] =
    ["1.2.3.1"; "1.2.3.2"; "1.2.3.3"]
  ∧ extractSeriesUids [tagged "1.2.3.1"; tagged "1.2.3.2"; tagged "1.2.3.3"] =
      ["1.2.3.1"; "1.2.3.2"; "1.2.3.3"].
Proof.
  destruct extractSeriesUids_spec as (_ & _ & Hdrop & Hall).
  split.
  - etrans; [apply (Hdrop ∅ [tagged "1.2.3.1"] [tagged "1.2.3.2"; tagged "1.2.3.3"]) |].
    + intros (uid & entry & rest & Hlookup & _). rewrite lookup_empty in Hlookup. discriminate.
    + vm_compute. reflexivity.
  - apply Hall. repeat constructor; apply tagged_carries.
Defined.

Lemma invalid_uid_no_network_witness :
  isValidStudyInstanceUID "..1.2.3" = false
  ∧ caseBundleHandler (demo_archive localhost) (orthancService None) "..1.2.3" initial_state =
      (Normal invalid_format, initial_state)
  ∧ orthancSeriesHandler (demo_archive localhost) (orthancService None) "..1.2.3" initial_state =
      (Normal invalid_format, initial_state).
Proof.
  split; [reflexivity |].
  destruct (invalid_uid_no_network (demo_archive localhost) (orthancService None) "..1.2.3"
              initial_state) as (H1 & H2 & _); [reflexivity |].
  split; [exact H1 | exact H2].
Defined.

Lemma caseBundle_series_overwritten_witness :
  ∃ sent σ'',
    caseBundleHandler (demo_archive localhost) (orthancService None) "123" initial_state =
      (Normal {| statusCode := 200; payload := CaseBundleBody sent |}, σ'')
    ∧ series (imaging sent) = ["1.2.3.1"; "1.2.3.2"]
    ∧ sent = with_series ["1.2.3.1"; "1.2.3.2"] case_max.
Proof.
  apply (caseBundle_series_overwritten (demo_archive localhost) (orthancService None) "123"
           initial_state
           {| store := caseBundles;
              requests := [find_request localhost "123"; series_request localhost "0a1b"] |}
           case_max (tagged "1.2.3.1") (tagged "1.2.3.2")).
  - exists case_max. vm_compute. reflexivity.
  - vm_compute. reflexivity.
  - vm_compute. reflexivity.
  - apply tagged_carries.
  - apply tagged_carries.
Defined.

Lemma caseBundle_series_kept_witness :
  caseBundleHandler net_down (orthancService None) "123" initial_state =
    (Normal {| statusCode := 200; payload := CaseBundleBody case_max |},
     {| store := caseBundles;
        requests := [find_request localhost "123"; find_request localhost "123"] |})
  ∧ series (imaging case_max) = ["SERIES_UID_1"; "SERIES_UID_2"].
Proof.
  split; [| reflexivity].
  apply (caseBundle_series_kept net_down (orthancService None) "123" initial_state
           {| store := caseBundles;
              requests := [find_request localhost "123"; find_request localhost "123"] |}
           case_max None).
  - exists case_max. vm_compute. reflexivity.
  - vm_compute. reflexivity.
  - vm_compute. reflexivity.
  - left. reflexivity.
Defined.

(* ===================================================================== *)
(** * Part III: further properties of the code                            *)
(* ===================================================================== *)

(** ** The archive query client: calls made *)

(** X1. One invocation of [fetchFromServer] never throws, never writes to the
    store, and makes one or two outbound calls: the find call first, then
    at most one list call; every call carries the 5000 ms timeout and goes
    to the given base address. *)
Theorem fetchFromServer_call_budget (net : Network) (baseUrl uid : string) (σ : AppState) :
  ∃ outcome calls,
    fetchFromServer net baseUrl uid σ =
      (Normal outcome, {| store := store σ; requests := requests σ ++ calls |})
    ∧ (1 ≤ length calls ≤ 2)%nat
    ∧ head calls = Some (find_request baseUrl uid)
    ∧ only_calls baseUrl calls.
Proof.
  destruct (fetchFromServer_shape net baseUrl uid σ) as (out & later & Hrun & Hlater).
  exists out, (find_request baseUrl uid :: later). split; [exact Hrun |].
  assert (Hfind : timeoutMs (find_request baseUrl uid) = 5000%Z
                  ∧ ∃ path, url (find_request baseUrl uid) = baseUrl +:+ path)
    by (split; [done | by eexists]).
  destruct Hlater as [-> | [studyId ->]]; simpl.
  - split; [lia |]. split; [done |]. constructor; [exact Hfind | constructor].
  - split; [lia |]. split; [done |].
    constructor; [exact Hfind |]. constructor; [| constructor].
    split; [done |]. by eexists.
Qed.

Lemma fetchFromServer_service_calls (net : Network) (this : OrthancService)
    (baseUrl uid : string) (σ : AppState) :
  baseUrl = primaryUrl this ∨ baseUrl = fallbackUrl this →
  ∃ outcome calls,
    fetchFromServer net baseUrl uid σ =
      (Normal outcome, {| store := store σ; requests := requests σ ++ calls |})
    ∧ (1 ≤ length calls ≤ 2)%nat
    ∧ Forall (service_call this) calls.
Proof.
  intros Hbase.
  destruct (fetchFromServer_shape net baseUrl uid σ) as (out & later & Hrun & Hlater).
  exists out, (find_request baseUrl uid :: later). split; [exact Hrun |].
  assert (Hcall : ∀ rq, timeoutMs rq = 5000%Z → (∃ path, url rq = baseUrl +:+ path) →
                        service_call this rq).
  { intros rq Ht Hurl. split; [done |]. destruct Hbase as [-> | ->]; [by left | by right]. }
  destruct Hlater as [-> | [studyId ->]]; simpl.
  - split; [lia |]. constructor; [| constructor]. apply Hcall; [done | by eexists].
  - split; [lia |]. constructor; [| constructor; [| constructor]];
      (apply Hcall; [done | by eexists]).
Qed.

Lemma fetchStudySeries_ends (net : Network) (this : OrthancService) (uid : string)
    (σ : AppState) :
  ∃ outcome calls,
    fetchStudySeries net this uid σ =
      (Normal outcome, {| store := store σ; requests := requests σ ++ calls |}).
Proof.
  unfold fetchStudySeries, mbind, Js_bind.
  destruct (fetchFromServer_shape net (primaryUrl this) uid σ) as (o1 & l1 & H1 & _).
  rewrite H1. destruct o1 as [found|]; [by eauto |].
  match goal with |- context [fetchFromServer net (fallbackUrl this) uid ?s] =>
    destruct (fetchFromServer_shape net (fallbackUrl this) uid s) as (o2 & l2 & H2 & _)
  end.
  rewrite H2. simpl. rewrite <- app_assoc. destruct o2; by eauto.
Qed.

(** X2. One invocation of [fetchStudySeries] never throws, never writes to the
    store, and makes between one and four outbound calls, each with the
    5000 ms timeout and to one of the two configured addresses; when the
    result is null, two to four calls were made. *)
Theorem fetchStudySeries_call_budget (net : Network) (this : OrthancService) (uid : string)
    (σ : AppState) :
  ∃ outcome calls,
    fetchStudySeries net this uid σ =
      (Normal outcome, {| store := store σ; requests := requests σ ++ calls |})
    ∧ (1 ≤ length calls ≤ 4)%nat
    ∧ Forall (service_call this) calls
    ∧ (outcome = None → 2 ≤ length calls)%nat.
Proof.
  unfold fetchStudySeries, mbind, Js_bind.
  destruct (fetchFromServer_service_calls net this (primaryUrl this) uid σ (or_introl eq_refl))
    as (o1 & c1 & H1 & Hl1 & Hc1).
  rewrite H1. destruct o1 as [found|].
  - exists (Some found), c1. simpl. repeat split; try done; lia.
  - match goal with |- context [fetchFromServer net (fallbackUrl this) uid ?s] =>
      destruct (fetchFromServer_service_calls net this (fallbackUrl this) uid s (or_intror eq_refl))
        as (o2 & c2 & H2 & Hl2 & Hc2)
    end.
    rewrite H2. simpl in *. rewrite <- app_assoc.
    assert (Hlen : length (c1 ++ c2) = (length c1 + length c2)%nat) by apply length_app.
    destruct o2 as [found|]; simpl.
    + exists (Some found), (c1 ++ c2). repeat split; try done; try lia. by apply Forall_app.
    + exists None, (c1 ++ c2). repeat split; try done; try lia. by apply Forall_app.
Qed.

(** ** The archive query client: the listing *)

Lemma toDicomWeb_describes (descriptor value : JsValue) :
  describes descriptor value → toDicomWeb descriptor = Normal (tagged_value value).
Proof.
  intros (props & tags & -> & Htags & ->). unfold toDicomWeb. simpl. rewrite Htags. done.
Qed.

Lemma mapM_toDicomWeb_describes (descriptors values : list JsValue) :
  Forall2 describes descriptors values →
  mapM toDicomWeb descriptors = Normal (map tagged_value values).
Proof.
  induction 1 as [|d v ds vs Hd _ IH]; [done |].
  simpl. rewrite (toDicomWeb_describes _ _ Hd). simpl.
  unfold mbind, Completion_bind in *. simpl. by rewrite IH.
Qed.

Lemma seriesUidOrNull_tagged_value (value : JsValue) :
  seriesUidOrNull (tagged_value value) =
    match value with JStr text => Some text | _ => None end.
Proof. unfold seriesUidOrNull, tagged_value. by rewrite lookup_singleton_eq. Qed.

Lemma extractSeriesUids_tagged_values (values : list JsValue) :
  extractSeriesUids (map tagged_value values) = strings_of values.
Proof.
  rewrite extractSeriesUids_omap. unfold strings_of.
  induction values as [|v vs IH]; [done |].
  rewrite map_cons. cbn [omap list_omap]. rewrite seriesUidOrNull_tagged_value.
  destruct v; first [exact IH | f_equal; exact IH].
Qed.

Lemma strings_of_strings (uids : list string) : strings_of (map JStr uids) = uids.
Proof.
  unfold strings_of. induction uids as [|u us IH]; [done |].
  rewrite map_cons. cbn [omap list_omap]. f_equal. exact IH.
Qed.

(** X3. When both calls succeed and every element of the listing is an object
    with a [MainDicomTags] object, the client returns one group per
    element, in the order of the listing, each holding the element's
    [SeriesInstanceUID] as its only value; [extractSeriesUids] then gives
    back exactly the identifiers that are strings, and all of them when
    every element has one. *)
Theorem fetchFromServer_listing (net : Network) (baseUrl uid : string) (σ : AppState)
    (r r' : Response) (studyId : string) (rest descriptors values : list JsValue) :
  net (requests σ) (find_request baseUrl uid) = Resolved r →
  ok r = true →
  json r = Normal (JArr (JStr studyId :: rest)) →
  net (requests σ ++ [find_request baseUrl uid]) (series_request baseUrl studyId) = Resolved r' →
  ok r' = true →
  json r' = Normal (JArr descriptors) →
  Forall2 describes descriptors values →
  fst (fetchFromServer net baseUrl uid σ) = Normal (Some (map tagged_value values))
  ∧ length (map tagged_value values) = length descriptors
  ∧ extractSeriesUids (map tagged_value values) = strings_of values
  ∧ (∀ uids, values = map JStr uids → extractSeriesUids (map tagged_value values) = uids).
Proof.
  intros H Hok Hjson H' Hok' Hjson' Hall.
  rewrite (fetchFromServer_found _ _ _ _ _ _ _ H Hok Hjson). cbv zeta.
  rewrite H', Hok', Hjson'. simpl. rewrite (mapM_toDicomWeb_describes _ _ Hall).
  split; [done |]. split.
  - rewrite length_map. symmetry. by eapply Forall2_length.
  - split; [apply extractSeriesUids_tagged_values |].
    intros uids ->. rewrite extractSeriesUids_tagged_values. apply strings_of_strings.
Qed.

Lemma toDicomWeb_lacks_tags (descriptor : JsValue) :
  lacks_tags descriptor → ∃ e, toDicomWeb descriptor = Throw e.
Proof.
  unfold lacks_tags, toDicomWeb. intros H.
  destruct (js_field "MainDicomTags" descriptor) as [tags|e]; simpl; [| by eauto].
  destruct (H tags eq_refl) as [-> | ->]; simpl; by eauto.
Qed.

Lemma mapM_toDicomWeb_throws (descriptors : list JsValue) (descriptor : JsValue) :
  In descriptor descriptors → lacks_tags descriptor →
  ∃ e, mapM toDicomWeb descriptors = Throw e.
Proof.
  intros Hin Hlack. induction descriptors as [|d ds IH]; [done |].
  simpl. destruct Hin as [-> | Hin].
  - destruct (toDicomWeb_lacks_tags _ Hlack) as [e ->]. simpl. by eauto.
  - destruct (IH Hin) as [e He]. unfold mbind, Completion_bind in *.
    destruct (toDicomWeb d); [| by eauto]. rewrite He. by eauto.
Qed.

(** X4. One element without tags spoils the whole listing: when both calls
    succeed but the listing is not an array, or some element of it is null
    or has no [MainDicomTags] object to read, the client returns null and
    none of the other series. *)
Theorem fetchFromServer_malformed_listing (net : Network) (baseUrl uid : string)
    (σ : AppState) (r r' : Response) (studyId : string) (rest : list JsValue)
    (listing : JsValue) :
  net (requests σ) (find_request baseUrl uid) = Resolved r →
  ok r = true →
  json r = Normal (JArr (JStr studyId :: rest)) →
  net (requests σ ++ [find_request baseUrl uid]) (series_request baseUrl studyId) = Resolved r' →
  ok r' = true →
  json r' = Normal listing →
  (∀ descriptors, listing ≠ JArr descriptors)
  ∨ (∃ descriptors descriptor,
       listing = JArr descriptors ∧ In descriptor descriptors ∧ lacks_tags descriptor) →
  fst (fetchFromServer net baseUrl uid σ) = Normal None.
Proof.
  intros H Hok Hjson H' Hok' Hjson' Hbad.
  rewrite (fetchFromServer_found _ _ _ _ _ _ _ H Hok Hjson). cbv zeta.
  rewrite H', Hok', Hjson'.
  destruct Hbad as [Hnot | (ds & d & -> & Hin & Hlack)].
  - destruct listing; try done. by destruct (Hnot items).
  - simpl. by destruct (mapM_toDicomWeb_throws _ _ Hin Hlack) as [e ->].
Qed.

(** X5. A find call that succeeds with a falsy body (null, false, zero or the
    empty string) is taken for "no such study": the client returns the
    empty sequence after that single call. *)
Theorem fetchFromServer_falsy_find_body (net : Network) (baseUrl uid : string)
    (σ : AppState) (r : Response) (ids : JsValue) :
  net (requests σ) (find_request baseUrl uid) = Resolved r →
  ok r = true →
  json r = Normal ids →
  js_truthy ids = false →
  fetchFromServer net baseUrl uid σ =
    (Normal (Some []),
     {| store := store σ; requests := requests σ ++ [find_request baseUrl uid] |}).
Proof.
  intros H Hok Hjson Hfalsy. unfold fetchFromServer. run_js.
  by rewrite H, Hok, Hjson, Hfalsy.
Qed.

(** ** Static networks *)

Lemma fetchFromServer_static (net : Network) (baseUrl uid : string) (σ σ' : AppState) :
  static_network net →
  fst (fetchFromServer net baseUrl uid σ) = fst (fetchFromServer net baseUrl uid σ').
Proof.
  intros Hstatic. unfold fetchFromServer. run_js.
  rewrite (Hstatic (requests σ) []), (Hstatic (requests σ') []).
  destruct (net [] (find_request baseUrl uid)) as [e|r]; simpl; [done |].
  destruct (ok r); simpl; [| done].
  destruct (json r) as [ids|e]; simpl; [| done].
  destruct (if negb (js_truthy ids) then Normal true else js_length_is_zero ids)
    as [[]|e]; simpl; [done | | done].
  destruct (js_index0 ids) as [first|e]; simpl; [| done].
  destruct (js_to_string first) as [studyId|e]; simpl; [| done].
  rewrite (Hstatic ((requests σ ++ _) ) []), (Hstatic ((requests σ' ++ _)) []).
  destruct (net [] (series_request baseUrl studyId)) as [e|r']; simpl; [done |].
  destruct (ok r'); simpl; [| done].
  destruct (json r') as [objs|e]; simpl; [| done].
  by destruct (js_array_map toDicomWeb objs).
Qed.

(** X6. Against a network whose answers do not depend on earlier calls, a
    service whose two addresses coincide (the configuration when
    [ORTHANC_URL] is unset) gains nothing from the fallback: the result of
    [fetchStudySeries] is the result of the primary query alone, and it is
    the same in every state, so repeating the call repeats the answer. *)
Theorem fetchStudySeries_static (net : Network) (this : OrthancService) (uid : string)
    (σ σ' : AppState) :
  static_network net →
  primaryUrl this = fallbackUrl this →
  fst (fetchStudySeries net this uid σ) = fst (fetchFromServer net (primaryUrl this) uid σ)
  ∧ fst (fetchStudySeries net this uid σ) = fst (fetchStudySeries net this uid σ').
Proof.
  intros Hstatic Hsame.
  assert (Hone : ∀ τ, fst (fetchStudySeries net this uid τ)
                      = fst (fetchFromServer net (primaryUrl this) uid τ)).
  { intros τ. unfold fetchStudySeries, mbind, Js_bind.
    destruct (fetchFromServer_shape net (primaryUrl this) uid τ) as (o1 & l1 & H1 & _).
    rewrite H1. destruct o1 as [found|]; [done |]. rewrite <- Hsame.
    match goal with |- context [fetchFromServer net (primaryUrl this) uid ?s] =>
      pose proof (fetchFromServer_static net (primaryUrl this) uid s τ Hstatic) as Heq;
      destruct (fetchFromServer_shape net (primaryUrl this) uid s) as (o2 & l2 & H2 & _)
    end.
    rewrite H2 in *. rewrite H1 in Heq. simpl in *. injection Heq as ->. done. }
  split; [apply Hone |]. rewrite !Hone. by apply fetchFromServer_static.
Qed.

(** ** The route handlers: answers *)

(** X7. The series route always answers, never writes to the store, and
    answers 400 exactly to an invalid identifier.  For a valid one the
    status is 200 whatever the archive did: the fetched groups are sent as
    they are, the empty sequence included, and only null is replaced by
    the error object, itself sent with status 200. *)
Theorem orthancSeriesHandler_outcomes (net : Network) (service : OrthancService)
    (uid : string) (σ : AppState) :
  ∃ answer σ',
    orthancSeriesHandler net service uid σ = (Normal answer, σ')
    ∧ store σ' = store σ
    ∧ (isValidStudyInstanceUID uid = false → answer = invalid_format ∧ σ' = σ)
    ∧ (isValidStudyInstanceUID uid = true →
         ∃ fetched,
           fetchStudySeries net service uid σ = (Normal fetched, σ')
           ∧ statusCode answer = 200%Z
           ∧ payload answer =
               match fetched with
               | Some groups => SeriesBody groups
               | None => ErrorResponse "Unable to fetch from Orthanc"
               end).
Proof.
  destruct (fetchStudySeries_ends net service uid σ) as (fetched & calls & Hrun).
  unfold orthancSeriesHandler, try_catch, mbind, Js_bind.
  destruct (isValidStudyInstanceUID uid); simpl.
  - rewrite Hrun. destruct fetched as [groups|]; simpl;
      eexists _, _; (split; [reflexivity |]); (split; [done |]);
      (split; [done |]); intros _; eexists; eauto.
  - eexists _, _. split; [reflexivity |]. split; [done |]. split; [done | done].
Qed.

(** X8. A valid identifier that the store does not hold is answered 404
    without any outbound call and without touching the state. *)
Theorem caseBundleHandler_not_found (net : Network) (service : OrthancService)
    (uid : string) (σ : AppState) :
  isValidStudyInstanceUID uid = true →
  store σ !! uid = None →
  caseBundleHandler net service uid σ =
    (Normal {| statusCode := 404; payload := ErrorResponse "Case not found for study UID" |}, σ).
Proof.
  intros Hvalid Hnone.
  unfold caseBundleHandler, try_catch, findCaseByStudyUid, mbind, Js_bind.
  rewrite Hvalid. simpl. by rewrite Hnone.
Qed.

(** X9. The case-bundle route always answers, and with 200, 400 or 404 only:
    the branch that answers 500 is never taken.  The status is 200 exactly
    when the identifier is valid and stored, and then the body is a case
    bundle that differs from the stored record in [imaging.series] at most. *)
Theorem caseBundleHandler_statuses (net : Network) (service : OrthancService)
    (uid : string) (σ : AppState) :
  ∃ answer σ',
    caseBundleHandler net service uid σ = (Normal answer, σ')
    ∧ (statusCode answer = 200%Z ∨ statusCode answer = 400%Z ∨ statusCode answer = 404%Z)
    ∧ (statusCode answer = 400%Z ↔ isValidStudyInstanceUID uid = false)
    ∧ (statusCode answer = 200%Z ↔
         isValidStudyInstanceUID uid = true ∧ is_Some (store σ !! uid))
    ∧ (∀ bundle, store σ !! uid = Some bundle → statusCode answer = 200%Z →
         ∃ seriesUids, payload answer = CaseBundleBody (with_series seriesUids bundle)).
Proof.
  destruct (fetchStudySeries_ends net service uid σ) as (fetched & calls & Hrun).
  unfold caseBundleHandler, try_catch, findCaseByStudyUid, mbind, Js_bind.
  destruct (isValidStudyInstanceUID uid); simpl.
  - destruct (store σ !! uid) as [bundle|] eqn:Hlookup; simpl.
    + rewrite Hrun.
      assert (Hid : bundle = with_series (series (imaging bundle)) bundle)
        by (by destruct bundle as [? ? ? ? []]).
      destruct fetched as [[|g gs]|]; simpl; eexists _, _;
        (split; [reflexivity |]); simpl;
        (split; [by left |]);
        (split; [split; intros; discriminate |]);
        (split; [split; [by eauto | done] |]);
        intros b [= <-] _;
        first [ by eexists | exists (series (imaging bundle)); congruence ].
    + eexists _, _. split; [reflexivity |]. simpl.
      split; [by right; right |].
      split; [split; intros; discriminate |].
      split; [split; [intros; discriminate | by intros [_ [? ?]]] |].
      intros; discriminate.
  - eexists _, _. split; [reflexivity |]. simpl.
    split; [by right; left |]. split; [done |].
    split; [split; [intros; discriminate | by intros [? _]] |].
    intros; discriminate.
Qed.

Lemma extractSeriesUids_none_carried (groups : list DicomWebSeries) :
  Forall (λ group, ¬ ∃ uid, carries group uid) groups → extractSeriesUids groups = [].
Proof.
  intros H. rewrite extractSeriesUids_omap.
  induction H as [|g gs Hg _ IH]; [done |].
  cbn [omap list_omap]. destruct (seriesUidOrNull g) as [uid|] eqn:Huid; [| exact IH].
  exfalso. apply Hg. exists uid. by apply seriesUidOrNull_carries.
Qed.

(** X10. The test before the assignment looks at the fetched groups, not at the
    identifiers extracted from them: a non-empty fetch none of whose groups
    carries a string identifier replaces the stored series list, whatever
    it held, by the empty list. *)
Theorem caseBundleHandler_overwrites_with_empty (net : Network) (service : OrthancService)
    (uid : string) (σ σ' : AppState) (bundle : CaseBundle)
    (group : DicomWebSeries) (groups : list DicomWebSeries) :
  isValidStudyInstanceUID uid = true →
  store σ !! uid = Some bundle →
  fetchStudySeries net service uid σ = (Normal (Some (group :: groups)), σ') →
  Forall (λ g, ¬ ∃ seriesUid, carries g seriesUid) (group :: groups) →
  caseBundleHandler net service uid σ =
    (Normal {| statusCode := 200; payload := CaseBundleBody (with_series [] bundle) |},
     {| store := <[uid := with_series [] bundle]> (store σ'); requests := requests σ' |}).
Proof.
  intros Hvalid Hlookup Hfetch Hnone.
  rewrite (caseBundleHandler_found _ _ _ _ _ _ _ Hvalid Hlookup Hfetch).
  by rewrite (extractSeriesUids_none_carried _ Hnone).
Qed.

(** X11. End to end: for a stored, valid identifier, when the primary server
    answers the find call with a record ID first and lists a non-empty
    array of descriptors holding the string identifiers [seriesUids], the
    handler makes exactly those two calls, answers 200 with the record
    whose series are [seriesUids], and leaves that record in the store. *)
Theorem caseBundleHandler_end_to_end (net : Network) (service : OrthancService)
    (uid : string) (σ : AppState) (bundle : CaseBundle) (r r' : Response)
    (studyId : string) (rest descriptors : list JsValue) (seriesUids : list string) :
  isValidStudyInstanceUID uid = true →
  store σ !! uid = Some bundle →
  net (requests σ) (find_request (primaryUrl service) uid) = Resolved r →
  ok r = true →
  json r = Normal (JArr (JStr studyId :: rest)) →
  net (requests σ ++ [find_request (primaryUrl service) uid])
      (series_request (primaryUrl service) studyId) = Resolved r' →
  ok r' = true →
  json r' = Normal (JArr descriptors) →
  descriptors ≠ [] →
  Forall2 describes descriptors (map JStr seriesUids) →
  caseBundleHandler net service uid σ =
    (Normal {| statusCode := 200; payload := CaseBundleBody (with_series seriesUids bundle) |},
     {| store := <[uid := with_series seriesUids bundle]> (store σ);
        requests := requests σ ++ [find_request (primaryUrl service) uid;
                                   series_request (primaryUrl service) studyId] |}).
Proof.
  intros Hvalid Hlookup H Hok Hjson H' Hok' Hjson' Hne Hall.
  assert (Hfetch : fetchStudySeries net service uid σ =
    (Normal (Some (map tagged_value (map JStr seriesUids))),
     {| store := store σ;
        requests := requests σ ++ [find_request (primaryUrl service) uid;
                                   series_request (primaryUrl service) studyId] |})).
  { unfold fetchStudySeries, mbind, Js_bind.
    rewrite (fetchFromServer_found _ _ _ _ _ _ _ H Hok Hjson). cbv zeta.
    rewrite H', Hok', Hjson'. simpl. by rewrite (mapM_toDicomWeb_describes _ _ Hall). }
  rewrite (caseBundleHandler_found _ _ _ _ _ _ _ Hvalid Hlookup Hfetch).
  destruct seriesUids as [|u us].
  { apply Forall2_length in Hall. destruct descriptors; [done | discriminate]. }
  cbn [map]. change (tagged_value (JStr u) :: map tagged_value (map JStr us))
    with (map tagged_value (map JStr (u :: us))).
  rewrite extractSeriesUids_tagged_values, strings_of_strings. done.
Qed.

(** ** The store across requests *)

Lemma caseBundles_records (key : string) (original : CaseBundle) :
  caseBundles !! key = Some original →
  studyInstanceUid original = key ∧ imaging_studyInstanceUid (imaging original) = key.
Proof.
  unfold caseBundles. intros H.
  repeat (apply lookup_insert_Some in H as [[<- <-]|[_ H]]; [done |]).
  by rewrite lookup_empty in H.
Qed.

Lemma store_consistent_initial : store_consistent caseBundles.
Proof.
  split; [done |]. intros key bundle H. exists bundle. split; [done |].
  by destruct bundle as [? ? ? ? []].
Qed.

Lemma store_consistent_assign (records : gmap string CaseBundle) (uid : string)
    (bundle : CaseBundle) (seriesUids : list string) :
  store_consistent records →
  records !! uid = Some bundle →
  store_consistent (<[uid := with_series seriesUids bundle]> records).
Proof.
  intros [Hdom Hrec] Hlookup. split.
  - rewrite dom_insert_L, <- Hdom.
    assert (Hin : uid ∈ dom records) by (apply elem_of_dom; eauto).
    apply subseteq_union_1_L. by apply singleton_subseteq_l.
  - intros key b Hb. apply lookup_insert_Some in Hb as [[<- <-]|[_ Hb]]; [| by apply Hrec].
    destruct (Hrec uid bundle Hlookup) as (original & Ho & Heq).
    exists original. split; [done |]. rewrite Heq. done.
Qed.

Lemma handle_store_consistent (net : Network) (service : OrthancService)
    (inbound : Inbound) (σ : AppState) :
  store_consistent (store σ) →
  (∃ answer, fst (handle net service inbound σ) = Normal answer)
  ∧ store_consistent (store (snd (handle net service inbound σ))).
Proof.
  intros Hinv. destruct inbound as [uid|uid]; simpl.
  - destruct (fetchStudySeries_ends net service uid σ) as (fetched & calls & Hrun).
    unfold caseBundleHandler, try_catch, findCaseByStudyUid, mbind, Js_bind.
    destruct (isValidStudyInstanceUID uid); simpl; [| by eauto].
    destruct (store σ !! uid) as [bundle|] eqn:Hlookup; simpl; [| by eauto].
    rewrite Hrun. destruct fetched as [[|g gs]|]; simpl; (split; [by eauto |]); try done.
    by apply store_consistent_assign.
  - rewrite orthancSeriesHandler_store. split; [| done].
    destruct (fetchStudySeries_ends net service uid σ) as (fetched & calls & Hrun).
    unfold orthancSeriesHandler, try_catch, mbind, Js_bind.
    destruct (isValidStudyInstanceUID uid); simpl; [| by eauto].
    rewrite Hrun. destruct fetched; by eauto.
Qed.

(** X13. Whatever requests the process has served and whatever the network did,
    every request was answered, the store has exactly the keys the module
    created, and each record is the created one up to [imaging.series]: its
    two [studyInstanceUid] fields still equal its key, which the validator
    accepts. *)
Theorem serve_store_consistent (net : Network) (service : OrthancService)
    (inbound : list Inbound) :
  let served := serve net service inbound initial_state in
  Forall (λ answer, ∃ response, answer = Normal response) (fst served)
  ∧ length (fst served) = length inbound
  ∧ dom (store (snd served)) = dom caseBundles
  ∧ ∀ key bundle, store (snd served) !! key = Some bundle →
      record_consistent key bundle
      ∧ studyInstanceUid bundle = key
      ∧ imaging_studyInstanceUid (imaging bundle) = key
      ∧ isValidStudyInstanceUID key = true.
Proof.
  cbv zeta.
  assert (Hgen : ∀ σ, store_consistent (store σ) →
            Forall (λ answer, ∃ response, answer = Normal response)
              (fst (serve net service inbound σ))
            ∧ length (fst (serve net service inbound σ)) = length inbound
            ∧ store_consistent (store (snd (serve net service inbound σ)))).
  { induction inbound as [|first others IH]; intros σ Hinv; simpl.
    - split; [constructor | split; [done | done]].
    - destruct (handle_store_consistent net service first σ Hinv) as [[answer Ha] Hinv1].
      destruct (handle net service first σ) as [a σ1]. simpl in *. subst a.
      destruct (IH σ1 Hinv1) as (Hall & Hlen & Hinv2).
      destruct (serve net service others σ1) as [answers σ2]. simpl in *.
      split; [constructor; [by eauto | done] |]. split; [by rewrite Hlen | done]. }
  destruct (Hgen initial_state store_consistent_initial) as (Hall & Hlen & Hdom & Hrec).
  split; [done |]. split; [done |]. split; [done |].
  intros key bundle Hlookup.
  pose proof (Hrec key bundle Hlookup) as Hc. split; [done |].
  destruct Hc as (original & Ho & Heq).
  destruct (caseBundles_records key original Ho) as [H1 H2].
  rewrite Heq. simpl. split; [done |]. split; [done |].
  apply caseBundles_keys_valid. eauto.
Qed.

(** ** The validator as a gate *)


(** ** The log sanitizer *)

Lemma js_split_dot_length (s : string) : length (js_split_dot s) = S (count_dots s).
Proof.
  induction s as [|c s IH]; [done |]. simpl.
  destruct (Ascii.eqb c "."); simpl; [by rewrite IH |].
  destruct (js_split_dot s); [discriminate | done].
Qed.

Lemma js_split_dot_free (s : string) : dot_free s → js_split_dot s = [s].
Proof.
  unfold dot_free. induction s as [|c s IH]; [done |]. simpl. intros H.
  destruct (Ascii.eqb_spec c ".") as [-> | _]; [by destruct H; left |].
  rewrite IH; [done |]. intros Hin. apply H. by right.
Qed.

Lemma js_split_dot_app (piece rest : string) :
  dot_free piece → js_split_dot (piece +:+ "." +:+ rest) = piece :: js_split_dot rest.
Proof.
  unfold dot_free. induction piece as [|c piece IH]; [done |]. simpl. intros H.
  destruct (Ascii.eqb_spec c ".") as [-> | _]; [by destruct H; left |].
  rewrite IH; [done |]. intros Hin. apply H. by right.
Qed.

Lemma js_split_join_dot (parts : list string) :
  parts ≠ [] → Forall dot_free parts → js_split_dot (js_join_dot parts) = parts.
Proof.
  intros Hne Hall. induction Hall as [|piece others Hp Hall IH]; [done |].
  destruct others as [|next others]; [by apply js_split_dot_free |].
  change (js_join_dot (piece :: next :: others))
    with (piece +:+ "." +:+ js_join_dot (next :: others)).
  rewrite js_split_dot_app by done. by rewrite IH.
Qed.

Lemma sanitizeUidForLogging_components (p1 p2 p3 : string) (rest : list string) :
  Forall dot_free (p1 :: p2 :: p3 :: rest) →
  (20 ≤ String.length (js_join_dot (p1 :: p2 :: p3 :: rest)))%nat →
  sanitizeUidForLogging (js_join_dot (p1 :: p2 :: p3 :: rest)) =
    js_join_dot [p1; p2; p3] +:+ "..." +:+ js_last_text (p3 :: rest).
Proof.
  intros Hall Hlen. unfold sanitizeUidForLogging.
  rewrite js_split_join_dot by done.
  destruct (js_join_dot (p1 :: p2 :: p3 :: rest)) as [|c uid] eqn:Huid; [simpl in Hlen; lia |].
  cbn [string_falsy orb].
  destruct (Nat.ltb_spec (String.length (String c uid)) 20) as [Hlt | _]; [lia |].
  done.
Qed.

(** X15. The sanitizer answers ["***"] for every identifier shorter than 20
    characters and for every identifier with fewer than two dots, however
    long. *)
Theorem sanitizeUidForLogging_masked (uid : string) :
  (String.length uid < 20)%nat ∨ (count_dots uid < 2)%nat →
  sanitizeUidForLogging uid = "***".
Proof.
  intros H. unfold sanitizeUidForLogging.
  destruct (string_falsy uid); [done |]. simpl.
  destruct (Nat.ltb_spec (String.length uid) 20) as [_ | Hge]; [done |].
  rewrite js_split_dot_length.
  destruct (Nat.ltb_spec (S (count_dots uid)) 3) as [_ | Hdots]; [done | lia].
Qed.

(** X16. An identifier of at least 20 characters with three or more components
    is logged as its first three components, three dots, and its last
    component. *)
Theorem sanitizeUidForLogging_form (p1 p2 p3 : string) (rest : list string) :
  Forall dot_free (p1 :: p2 :: p3 :: rest) →
  (20 ≤ String.length (js_join_dot (p1 :: p2 :: p3 :: rest)))%nat →
  sanitizeUidForLogging (js_join_dot (p1 :: p2 :: p3 :: rest)) =
    js_join_dot [p1; p2; p3] +:+ "..." +:+ js_last_text (p3 :: rest).
Proof. apply sanitizeUidForLogging_components. Qed.

(** X17. For an identifier of exactly three components and at least 20
    characters nothing is hidden: the logged text is the whole identifier,
    followed by three dots and its last component once more. *)
Theorem sanitizeUidForLogging_three_components (p1 p2 p3 : string) :
  Forall dot_free [p1; p2; p3] →
  (20 ≤ String.length (js_join_dot [p1; p2; p3]))%nat →
  sanitizeUidForLogging (js_join_dot [p1; p2; p3]) =
    js_join_dot [p1; p2; p3] +:+ "..." +:+ p3.
Proof. intros Hall Hlen. by rewrite sanitizeUidForLogging_components. Qed.

(** ** The further properties at concrete inputs *)

Lemma series_descriptor_describes (uid : string) :
  describes (series_descriptor uid) (JStr uid).
Proof.
  exists [("Type", JStr "Series");
          ("MainDicomTags", JObj [("SeriesInstanceUID", JStr uid)])],
         [("SeriesInstanceUID", JStr uid)].
  split; [reflexivity | split; reflexivity].
Defined.

Lemma archive_static (base : string) (ids : JsValue) (studyId : string) (listing : JsValue) :
  static_network (archive base ids studyId listing).
Proof. intros past past' rq. reflexivity. Defined.

Lemma fetchFromServer_listing_witness :
  fst (fetchFromServer (demo_archive localhost) localhost "123" initial_state) =
    Normal (Some (map tagged_value [JStr "1.2.3.1"; JStr "1.2.3.2"]))
  ∧ extractSeriesUids (map tagged_value [JStr "1.2.3.1"; JStr "1.2.3.2"]) =
      ["1.2.3.1"; "1.2.3.2"].
Proof.
  destruct (fetchFromServer_listing (demo_archive localhost) localhost "123" initial_state
              {| status := 200; json := Normal (JArr [JStr "0a1b"; JStr "2c3d"]) |}
              {| status := 200;
                 json := Normal (JArr [series_descriptor "1.2.3.1";
                                       series_descriptor "1.2.3.2"]) |}
              "0a1b" [JStr "2c3d"]
              [series_descriptor "1.2.3.1"; series_descriptor "1.2.3.2"]
              [JStr "1.2.3.1"; JStr "1.2.3.2"])
    as (Hrun & _ & _ & Hall); try reflexivity.
  - repeat constructor; apply series_descriptor_describes.
  - split; [exact Hrun | apply (Hall ["1.2.3.1"; "1.2.3.2"]); reflexivity].
Defined.

Lemma fetchFromServer_malformed_listing_witness :
  fst (fetchFromServer (holed_archive localhost) localhost "123" initial_state) = Normal None.
Proof.
  apply (fetchFromServer_malformed_listing (holed_archive localhost) localhost "123"
           initial_state
           {| status := 200; json := Normal (JArr [JStr "0a1b"]) |}
           {| status := 200; json := Normal (JArr [series_descriptor "1.2.3.1"; JNull]) |}
           "0a1b" [] (JArr [series_descriptor "1.2.3.1"; JNull])); try reflexivity.
  right. exists [series_descriptor "1.2.3.1"; JNull], JNull.
  split; [reflexivity |]. split; [simpl; tauto |].
  intros tags Htags. simpl in Htags. discriminate.
Defined.

Lemma fetchFromServer_falsy_find_body_witness :
  fetchFromServer (archive localhost JNull "0a1b" JNull) localhost "123" initial_state =
    (Normal (Some []),
     {| store := caseBundles; requests := [find_request localhost "123"] |}).
Proof.
  apply (fetchFromServer_falsy_find_body (archive localhost JNull "0a1b" JNull) localhost "123"
           initial_state {| status := 200; json := Normal JNull |} JNull); reflexivity.
Defined.

Lemma fetchStudySeries_static_witness :
  fst (fetchStudySeries (demo_archive localhost) (orthancService None) "123" initial_state) =
    fst (fetchFromServer (demo_archive localhost) localhost "123" initial_state)
  ∧ fst (fetchStudySeries (demo_archive localhost) (orthancService None) "123" initial_state) =
      fst (fetchStudySeries (demo_archive localhost) (orthancService None) "123"
             {| store := caseBundles; requests := [find_request localhost "123"] |}).
Proof.
  apply (fetchStudySeries_static (demo_archive localhost) (orthancService None) "123"
           initial_state {| store := caseBundles; requests := [find_request localhost "123"] |}).
  - apply archive_static.
  - reflexivity.
Defined.

Lemma caseBundleHandler_not_found_witness :
  caseBundleHandler (demo_archive localhost) (orthancService None) "1.2.3.4.5" initial_state =
    (Normal {| statusCode := 404; payload := ErrorResponse "Case not found for study UID" |},
     initial_state).
Proof.
  apply (caseBundleHandler_not_found (demo_archive localhost) (orthancService None)
           "1.2.3.4.5" initial_state).
  - reflexivity.
  - vm_compute. reflexivity.
Defined.

Lemma caseBundleHandler_overwrites_with_empty_witness :
  caseBundleHandler (bare_archive localhost) (orthancService None) "123" initial_state =
    (Normal {| statusCode := 200; payload := CaseBundleBody (with_series [] case_max) |},
     {| store := <["123" := with_series [] case_max]> caseBundles;
        requests := [find_request localhost "123"; series_request localhost "0a1b"] |})
  ∧ series (imaging case_max) = ["SERIES_UID_1"; "SERIES_UID_2"].
Proof.
  split; [| reflexivity].
  apply (caseBundleHandler_overwrites_with_empty (bare_archive localhost) (orthancService None)
           "123" initial_state
           {| store := caseBundles;
              requests := [find_request localhost "123"; series_request localhost "0a1b"] |}
           case_max (tagged_value JUndefined) []).
  - reflexivity.
  - vm_compute. reflexivity.
  - vm_compute. reflexivity.
  - constructor; [| constructor].
    intros [uid Hcarries]. apply seriesUidOrNull_carries in Hcarries.
    rewrite seriesUidOrNull_tagged_value in Hcarries. discriminate.
Defined.

Lemma caseBundleHandler_end_to_end_witness :
  caseBundleHandler (demo_archive localhost) (orthancService None) "123" initial_state =
    (Normal {| statusCode := 200;
               payload := CaseBundleBody (with_series ["1.2.3.1"; "1.2.3.2"] case_max) |},
     {| store := <["123" := with_series ["1.2.3.1"; "1.2.3.2"] case_max]> caseBundles;
        requests := [find_request localhost "123"; series_request localhost "0a1b"] |}).
Proof.
  apply (caseBundleHandler_end_to_end (demo_archive localhost) (orthancService None) "123"
           initial_state case_max
           {| status := 200; json := Normal (JArr [JStr "0a1b"; JStr "2c3d"]) |}
           {| status := 200;
              json := Normal (JArr [series_descriptor "1.2.3.1";
                                    series_descriptor "1.2.3.2"]) |}
           "0a1b" [JStr "2c3d"]
           [series_descriptor "1.2.3.1"; series_descriptor "1.2.3.2"]
           ["1.2.3.1"; "1.2.3.2"]).
  - reflexivity.
  - vm_compute. reflexivity.
  - reflexivity.
  - reflexivity.
  - reflexivity.
  - reflexivity.
  - reflexivity.
  - reflexivity.
  - discriminate.
  - repeat constructor; apply series_descriptor_describes.
Defined.

Lemma caseBundleHandler_other_records_witness :
  store (snd (caseBundleHandler (demo_archive localhost) (orthancService None) "123"
                initial_state))
    !! "2.16.840.1.113669.632.20.1211.10000357775"
  = store initial_state !! "2.16.840.1.113669.632.20.1211.10000357775".
Proof.
  apply (caseBundleHandler_other_records (demo_archive localhost) (orthancService None)
           "123" "2.16.840.1.113669.632.20.1211.10000357775" initial_state).
  discriminate.
Defined.


Lemma sanitizeUidForLogging_masked_witness :
  sanitizeUidForLogging "1.2.3" = "***"
  ∧ sanitizeUidForLogging "12345678901234567890.1" = "***".
Proof.
  split.
  - apply (sanitizeUidForLogging_masked "1.2.3"). left. simpl. lia.
  - apply (sanitizeUidForLogging_masked "12345678901234567890.1"). right. simpl. lia.
Defined.

Ltac dot_free_parts :=
  repeat constructor; intros Hin; simpl in Hin; intuition discriminate.

Lemma sanitizeUidForLogging_form_witness :
  sanitizeUidForLogging "1.2.840.113619.2.55.3.123456789.001" = "1.2.840...001".
Proof.
  apply (sanitizeUidForLogging_form "1" "2" "840" ["113619"; "2"; "55"; "3"; "123456789"; "001"]).
  - dot_free_parts.
  - simpl. lia.
Defined.

Lemma sanitizeUidForLogging_three_components_witness :
  sanitizeUidForLogging "1.2.33333333333333333" =
    "1.2.33333333333333333...33333333333333333".
Proof.
  apply (sanitizeUidForLogging_three_components "1" "2" "33333333333333333").
  - dot_free_parts.
  - simpl. lia.
Defined.
